(** * Roberto: a shallow embedding of the version-tag parser, the deployment
    gate, the package defaults of the configuration, the requirement hash and
    the task graph, with the properties stated in the specification. *)

From Stdlib Require Import List String Ascii Bool Arith Lia ZArith QArith Permutation.
From Stdlib Require Import Strings.Byte.
From stdpp Require Import base gmap strings sorting.
Import ListNotations.

(* ===================================================================== *)
(** ** Python strings *)
(* ===================================================================== *)

(** A Python [str] restricted to ASCII characters, as a list of characters. *)
Definition pystr := list ascii.

(** A literal, written as a Rocq string. *)
Definition lit (x : string) : pystr := list_ascii_of_string x.

Definition ascii_eqb (a b : ascii) : bool := if ascii_dec a b then true else false.

Definition pystr_eqb (x y : pystr) : bool := bool_decide (x = y).

(** [str.isspace] on ASCII: \t \n \v \f \r (9..13), the separators 28..31
    and the space (32). *)
Definition is_space (c : ascii) : bool :=
  let n := nat_of_ascii c in
  ((9 <=? n) && (n <=? 13)) || ((28 <=? n) && (n <=? 32)).

Fixpoint lstrip (x : pystr) : pystr :=
  match x with
  | [] => []
  | c :: r => if is_space c then lstrip r else x
  end.

Definition rstrip (x : pystr) : pystr := rev (lstrip (rev x)).

(** [str.strip()] *)
Definition strip (x : pystr) : pystr := rstrip (lstrip x).

(** [str.split(sep)] with a one-character separator: never empty. *)
Fixpoint py_split (sep : ascii) (x : pystr) : list pystr :=
  match x with
  | [] => [[]]
  | c :: r =>
      let ws := py_split sep r in
      if ascii_eqb c sep then [] :: ws
      else match ws with
           | w :: ws' => (c :: w) :: ws'
           | [] => [[c]]
           end
  end.

(** The regex class [\d] (ASCII decimal digits). *)
Definition is_digit (c : ascii) : bool :=
  let n := nat_of_ascii c in (48 <=? n) && (n <=? 57).

(** [str.isnumeric()] on ASCII: non-empty and only digits. *)
Definition isnumeric (x : pystr) : bool :=
  match x with
  | [] => false
  | _ => forallb is_digit x
  end.

(** Longest prefix of digits and the rest. *)
Fixpoint span_digits (x : pystr) : pystr * pystr :=
  match x with
  | c :: r =>
      if is_digit c then let '(d, rest) := span_digits r in (c :: d, rest)
      else ([], x)
  | [] => ([], [])
  end.

Definition newline : ascii := ascii_of_nat 10.

(** [re.fullmatch(r'(\d+)(. * )', x)] (pattern written without its
    spaces), returning the two groups.  The greedy
    [\d+] takes the longest run of digits; [.] matches any character but a
    newline, so the match fails when the rest holds a newline (a shorter run
    of digits only lengthens the rest). *)
Definition fullmatch_patch (x : pystr) : option (pystr * pystr) :=
  let '(d, rest) := span_digits x in
  match d with
  | [] => None
  | _ => if existsb (ascii_eqb newline) rest then None else Some (d, rest)
  end.

(** [re.fullmatch(r'<c>\d+', x) is not None] *)
Definition fullmatch_letter_digits (c : ascii) (x : pystr) : bool :=
  match x with
  | c' :: r => ascii_eqb c' c && isnumeric r
  | [] => false
  end.

(* ===================================================================== *)
(** ** parse_git_describe (utils.py) *)
(* ===================================================================== *)

Record version_info := {
  describe : pystr;
  tag : pystr;
  tag_version : pystr;
  tag_soversion : pystr;
  tag_version_major : pystr;
  tag_version_minor : pystr;
  tag_version_patch : pystr;
  tag_version_suffix : pystr;
  tag_stable : bool;
  tag_test : bool;
  tag_dev : bool;
  tag_release : bool;
  deploy_label : option pystr
}.

(** [TagError(message, tag)] *)
Record TagError := { tag_error_message : pystr; tag_error_tag : pystr }.

(** A call that returns a value or raises a [TagError]. *)
Inductive outcome (A : Type) :=
| Ok (a : A)
| Raise (e : TagError).
Arguments Ok {A} a.
Arguments Raise {A} e.

Definition dot : pystr := lit ".".

Definition parse_git_describe (git_describe0 : pystr) : outcome version_info :=
  let git_describe := strip git_describe0 in
  let version_words := py_split "-"%char git_describe in
  let tag := hd [] version_words in
  match py_split "."%char tag with
  | [major; minor; last_part] =>
      match fullmatch_patch last_part with
      | None => Raise {| tag_error_message := lit "The patch version must start with a number.";
                         tag_error_tag := tag |}
      | Some (patch, suffix0) =>
          if negb (isnumeric minor) then
            Raise {| tag_error_message := lit "The minor version must be numeric.";
                     tag_error_tag := tag |}
          else if negb (isnumeric major) then
            Raise {| tag_error_message := lit "The major version must be numeric.";
                     tag_error_tag := tag |}
          else
            let suffix :=
              match version_words with
              | _ :: w1 :: _ => suffix0 ++ lit ".post" ++ w1
              | _ => suffix0
              end in
            let stable := match suffix with [] => true | _ => false end in
            let test := fullmatch_letter_digits "b"%char suffix in
            let dev := fullmatch_letter_digits "a"%char suffix in
            Ok {| describe := git_describe;
                  tag := tag;
                  tag_version := major ++ dot ++ minor ++ dot ++ patch ++ suffix;
                  tag_soversion := major ++ dot ++ minor;
                  tag_version_major := major;
                  tag_version_minor := minor;
                  tag_version_patch := patch;
                  tag_version_suffix := suffix;
                  tag_stable := stable;
                  tag_test := test;
                  tag_dev := dev;
                  tag_release := stable || test || dev;
                  deploy_label :=
                    if stable then Some (lit "main")
                    else if test then Some (lit "test")
                    else if dev then Some (lit "dev")
                    else None |}
      end
  | _ => Raise {| tag_error_message := lit "A version tag must at least contain two dots.";
                  tag_error_tag := tag |}
  end.

(** [sep.join(ws)], the inverse of [py_split]. *)
Fixpoint join_sep (sep : ascii) (ws : list pystr) : pystr :=
  match ws with
  | [] => []
  | [w] => w
  | w :: ws' => w ++ sep :: join_sep sep ws'
  end.

(** The result dict without its ['describe'] entry (set to the empty string). *)
Definition without_describe (i : version_info) : version_info :=
  {| describe := []; tag := tag i; tag_version := tag_version i;
     tag_soversion := tag_soversion i; tag_version_major := tag_version_major i;
     tag_version_minor := tag_version_minor i; tag_version_patch := tag_version_patch i;
     tag_version_suffix := tag_version_suffix i; tag_stable := tag_stable i;
     tag_test := tag_test i; tag_dev := tag_dev i; tag_release := tag_release i;
     deploy_label := deploy_label i |}.

(** A parse outcome with the ['describe'] entry dropped. *)
Definition outcome_without_describe (o : outcome version_info) : outcome version_info :=
  match o with
  | Ok i => Ok (without_describe i)
  | Raise e => Raise e
  end.

(* ===================================================================== *)
(** ** need_deployment (utils.py) *)
(* ===================================================================== *)

(** The part of the configuration [need_deployment] reads.  The deploy label
    is [None] for a non-release tag (see [parse_git_describe]). *)
Record deploy_config := {
  deploy_binary : bool;
  deploy_noarch : bool;
  git_deploy_label : option pystr
}.

(** [ctx.git.deploy_label in deploy_labels]: [None] equals no [str]. *)
Definition label_in (label : option pystr) (deploy_labels : list pystr) : bool :=
  match label with
  | Some l => existsb (pystr_eqb l) deploy_labels
  | None => false
  end.

(** The printed messages are left out; [prefix] only appears in them. *)
Definition need_deployment (ctx : deploy_config) (prefix : pystr) (binary : bool)
    (deploy_labels : list pystr) : bool :=
  if binary && negb (deploy_binary ctx) then false
  else if negb binary && negb (deploy_noarch ctx) then false
  else if negb (label_in (git_deploy_label ctx) deploy_labels) then false
  else true.

(* ===================================================================== *)
(** ** Package defaults in RobertoConfig._finalize (config.py) *)
(* ===================================================================== *)

(** Values of the configuration tree. *)
Inductive pval :=
| PNone
| PBool (b : bool)
| PStr (x : pystr)
| PList (l : list pystr).

(** One package of [project.packages], a dict with string keys. *)
Abbreviation package := (gmap string pval).

(** The body of [for package in self.project.packages: ...]. *)
Definition finalize_package (project_name : pval) (pkg : package) : package :=
  let pkg := match pkg !! "path"%string with
             | None => <["path"%string := PStr (lit ".")]> pkg
             | Some _ => pkg
             end in
  match pkg !! "name"%string with
  | None => <["name"%string := project_name]> pkg
  | Some _ => pkg
  end.

(** The loop mutates each package dict in place; the list keeps its order. *)
Definition finalize_packages (project_name : pval) (packages : list package) : list package :=
  map (finalize_package project_name) packages.

(* ===================================================================== *)
(** ** SHA-256 (hashlib.sha256) *)
(* ===================================================================== *)

Module SHA256.

Local Open Scope Z_scope.

Definition w32 (x : Z) : Z := Z.land x (Z.ones 32).
Definition add32 (x y : Z) : Z := w32 (x + y).
Definition rotr (n x : Z) : Z := Z.lor (Z.shiftr x n) (w32 (Z.shiftl x (32 - n))).
Definition shr (n x : Z) : Z := Z.shiftr x n.
Definition not32 (x : Z) : Z := Z.lxor x (Z.ones 32).

Definition ch (x y z : Z) : Z := Z.lxor (Z.land x y) (Z.land (not32 x) z).
Definition maj (x y z : Z) : Z := Z.lxor (Z.lxor (Z.land x y) (Z.land x z)) (Z.land y z).
Definition bsig0 (x : Z) : Z := Z.lxor (Z.lxor (rotr 2 x) (rotr 13 x)) (rotr 22 x).
Definition bsig1 (x : Z) : Z := Z.lxor (Z.lxor (rotr 6 x) (rotr 11 x)) (rotr 25 x).
Definition ssig0 (x : Z) : Z := Z.lxor (Z.lxor (rotr 7 x) (rotr 18 x)) (shr 3 x).
Definition ssig1 (x : Z) : Z := Z.lxor (Z.lxor (rotr 17 x) (rotr 19 x)) (shr 10 x).

(** The 64 round constants of FIPS 180-4, section 4.2.2 (in decimal). *)
Definition K : list Z := [
  1116352408; 1899447441; 3049323471; 3921009573; 961987163; 1508970993;
  2453635748; 2870763221; 3624381080; 310598401; 607225278; 1426881987;
  1925078388; 2162078206; 2614888103; 3248222580; 3835390401; 4022224774;
  264347078; 604807628; 770255983; 1249150122; 1555081692; 1996064986;
  2554220882; 2821834349; 2952996808; 3210313671; 3336571891; 3584528711;
  113926993; 338241895; 666307205; 773529912; 1294757372; 1396182291;
  1695183700; 1986661051; 2177026350; 2456956037; 2730485921; 2820302411;
  3259730800; 3345764771; 3516065817; 3600352804; 4094571909; 275423344;
  430227734; 506948616; 659060556; 883997877; 958139571; 1322822218;
  1537002063; 1747873779; 1955562222; 2024104815; 2227730452; 2361852424;
  2428436474; 2756734187; 3204031479; 3329325298].

(** The eight working variables a..h. *)
Record state := { ha : Z; hb : Z; hc : Z; hd : Z; he : Z; hf : Z; hg : Z; hh : Z }.

Definition H0 : state :=
  {| ha := 1779033703; hb := 3144134277; hc := 1013904242; hd := 2773480762;
     he := 1359893119; hf := 2600822924; hg := 528734635; hh := 1541459225 |}.

(** Message schedule: [acc] holds W[t-1], W[t-2], ... (most recent first). *)
Fixpoint extend (k : nat) (acc : list Z) : list Z :=
  match k with
  | O => acc
  | S k' =>
      extend k' (add32 (add32 (ssig1 (nth 1 acc 0)) (nth 6 acc 0))
                       (add32 (ssig0 (nth 14 acc 0)) (nth 15 acc 0)) :: acc)
  end.

Definition schedule (w16 : list Z) : list Z := rev (extend 48 (rev w16)).

Definition round (s : state) (kw : Z * Z) : state :=
  let '(k, w) := kw in
  let t1 := add32 (add32 (add32 (hh s) (bsig1 (he s))) (add32 (ch (he s) (hf s) (hg s)) k)) w in
  let t2 := add32 (bsig0 (ha s)) (maj (ha s) (hb s) (hc s)) in
  {| ha := add32 t1 t2; hb := ha s; hc := hb s; hd := hc s;
     he := add32 (hd s) t1; hf := he s; hg := hf s; hh := hg s |}.

Definition add_state (s t : state) : state :=
  {| ha := add32 (ha s) (ha t); hb := add32 (hb s) (hb t); hc := add32 (hc s) (hc t);
     hd := add32 (hd s) (hd t); he := add32 (he s) (he t); hf := add32 (hf s) (hf t);
     hg := add32 (hg s) (hg t); hh := add32 (hh s) (hh t) |}.

(** Big-endian 32-bit words of a block. *)
Fixpoint words (l : list Z) : list Z :=
  match l with
  | b0 :: b1 :: b2 :: b3 :: r =>
      (b0 * 16777216 + b1 * 65536 + b2 * 256 + b3) :: words r
  | _ => []
  end.

Definition compress (s : state) (block : list Z) : state :=
  add_state s (fold_left round (combine K (schedule (words block))) s).

(** Blocks of 64 bytes; [fuel] bounds the number of blocks. *)
Fixpoint blocks (fuel : nat) (l : list Z) : list (list Z) :=
  match fuel, l with
  | O, _ => []
  | _, [] => []
  | S f, _ => firstn 64 l :: blocks f (skipn 64 l)
  end.

Definition be64 (n : Z) : list Z :=
  map (fun i => Z.land (Z.shiftr n (8 * Z.of_nat i)) 255) (rev (seq 0 8)).

Definition pad (m : list Z) : list Z :=
  let len := Z.of_nat (length m) in
  let k := Z.to_nat ((55 - len) mod 64) in
  m ++ [128] ++ repeat 0 k ++ be64 (8 * len).

Definition word_bytes (w : Z) : list Z :=
  [Z.land (Z.shiftr w 24) 255; Z.land (Z.shiftr w 16) 255;
   Z.land (Z.shiftr w 8) 255; Z.land w 255].

Definition digest_bytes (s : state) : list Z :=
  word_bytes (ha s) ++ word_bytes (hb s) ++ word_bytes (hc s) ++ word_bytes (hd s) ++
  word_bytes (he s) ++ word_bytes (hf s) ++ word_bytes (hg s) ++ word_bytes (hh s).

Definition sha256 (m : list byte) : list Z :=
  let p := pad (map (fun b => Z.of_nat (Byte.to_nat b)) m) in
  digest_bytes (fold_left compress (blocks (length p) p) H0).

Definition hex_chars : pystr := lit "0123456789abcdef".

Definition hex_byte (b : Z) : pystr :=
  [nth (Z.to_nat (Z.shiftr b 4)) hex_chars "0"%char;
   nth (Z.to_nat (Z.land b 15)) hex_chars "0"%char].

(** [hexdigest()] of the bytes. *)
Definition hexdigest (m : list byte) : pystr := flat_map hex_byte (sha256 m).

End SHA256.

(* ===================================================================== *)
(** ** compute_req_hash (utils.py) *)
(* ===================================================================== *)

(** [hashlib.sha256()] as the bytes fed to it so far: [update] appends, and
    [hexdigest] hashes all of them (SHA-256 is a streaming hash). *)
Definition hasher := list byte.
Definition hasher_update (h : hasher) (b : list byte) : hasher := h ++ b.
Definition hasher_hexdigest (h : hasher) : pystr := SHA256.hexdigest h.

(** [str.encode('utf-8')] on ASCII text. *)
Definition encode_utf8 (x : pystr) : list byte := map byte_of_ascii x.

(** Directory entries: [os.path.isfile] holds for regular files only. *)
Inductive entry_kind :=
| RegularFile (contents : list byte)
| Directory
| OtherEntry.

Record dir_entry := { entry_name : pystr; kind : entry_kind }.

(** A file system: the entries of each directory, in listing order. *)
Definition filesystem := pystr -> list dir_entry.

(** [glob(os.path.join(recipe_dir, "*"))]: the entries of the directory whose
    name does not start with a dot, in listing order (no recursion). *)
Definition glob_star (fs : filesystem) (recipe_dir : pystr) : list dir_entry :=
  List.filter (fun e => match entry_name e with
                   | c :: _ => negb (ascii_eqb c "."%char)
                   | [] => true
                   end) (fs recipe_dir).

(** [if os.path.isfile(fn_recipe): hasher.update(f.read())] *)
Definition hash_recipe_file (h : hasher) (e : dir_entry) : hasher :=
  match kind e with
  | RegularFile contents => hasher_update h contents
  | _ => h
  end.

Definition hash_packages (h : hasher) (packages : list pystr) : hasher :=
  fold_left (fun h p => hasher_update h (encode_utf8 p)) packages h.

(** The hasher after the three loops of [compute_req_hash]. *)
Definition req_hasher (fs : filesystem) (conda_packages recipe_dirs pip_packages : list pystr)
    : hasher :=
  let h := hash_packages [] conda_packages in
  let h := fold_left (fun h d => fold_left hash_recipe_file (glob_star fs d) h) recipe_dirs h in
  hash_packages h pip_packages.

Definition compute_req_hash (fs : filesystem) (conda_packages recipe_dirs pip_packages : list pystr)
    : pystr :=
  hasher_hexdigest (req_hasher fs conda_packages recipe_dirs pip_packages).

(** The bytes one directory entry feeds to the hasher. *)
Definition entry_bytes (e : dir_entry) : list byte :=
  match kind e with
  | RegularFile contents => contents
  | _ => []
  end.

(** The bytes one recipe directory feeds to the hasher. *)
Definition recipe_bytes (fs : filesystem) (recipe_dir : pystr) : list byte :=
  flat_map entry_bytes (glob_star fs recipe_dir).

(** The file system after the listing of [d] becomes [listing]. *)
Definition fs_with (fs : filesystem) (d : pystr) (listing : list dir_entry) : filesystem :=
  fun d' => if pystr_eqb d' d then listing else fs d'.

(* ===================================================================== *)
(** ** The task graph (tasks.py) *)
(* ===================================================================== *)

(** The tasks declared with [@task] in tasks.py. *)
Inductive task :=
| sanitize_git | install_conda | setup_conda_env | install_requirements
| write_version | lint_static | build_inplace | test_inplace | upload_coverage
| lint_dynamic | build_docs | upload_docs_git | build_packages | deploy
| nuclear | quality | robot.

#[global] Instance task_eq_dec : EqDecision task.
Proof. solve_decision. Defined.

Definition all_tasks : list task :=
  [sanitize_git; install_conda; setup_conda_env; install_requirements;
   write_version; lint_static; build_inplace; test_inplace; upload_coverage;
   lint_dynamic; build_docs; upload_docs_git; build_packages; deploy;
   nuclear; quality; robot].

(** The prerequisites, in the order of the [@task(...)] decorators. *)
Definition pre (t : task) : list task :=
  match t with
  | sanitize_git => []
  | install_conda => []
  | setup_conda_env => [install_conda]
  | install_requirements => [setup_conda_env]
  | write_version => []
  | lint_static => [install_requirements; sanitize_git; write_version]
  | build_inplace => [install_requirements; sanitize_git; write_version]
  | test_inplace => [build_inplace]
  | upload_coverage => [test_inplace]
  | lint_dynamic => [build_inplace]
  | build_docs => [install_requirements; build_inplace; write_version]
  | upload_docs_git => [install_requirements; build_docs]
  | build_packages => [install_requirements; write_version]
  | deploy => [install_requirements; build_packages]
  | nuclear => [setup_conda_env]
  | quality => [lint_static; test_inplace; upload_coverage; lint_dynamic; build_docs]
  | robot => [quality; upload_docs_git; deploy]
  end.

(** [@task(..., default=True)] *)
Definition default_task : task := quality.

(** One ExecutionRun: the completed tasks and the order in which their
    bodies ran. *)
Record run_state (T : Type) := { completed : list T; order : list T }.
Arguments completed {T} r.
Arguments order {T} r.
Arguments Build_run_state {T} _ _.

Definition init_state {T : Type} : run_state T := Build_run_state [] [].

(** Thread a fallible step through a list, stopping at the first failure. *)
Fixpoint fold_opt {A S : Type} (step : A -> S -> option S) (l : list A) (s : S) : option S :=
  match l with
  | [] => Some s
  | x :: l' =>
      match step x s with
      | Some s' => fold_opt step l' s'
      | None => None
      end
  end.

Section Scheduler.

Context {T : Type} `{EqDecision T}.
Variable prereqs : T -> list T.

(** Modelled from the spec: the task executor (section 4.5, the Task Graph
    Scheduler; it is the task library's executor, not code of this
    repository).  A requested task that is completed is a no-op; a task met
    again while it is running is a cycle error; otherwise its prerequisites
    are driven depth-first, left to right, then its body runs and it is
    completed.  [None] is the cycle error (or [fuel] running out);
    [running] holds the tasks whose prerequisites are being driven. *)
Fixpoint run_task (fuel : nat) (running : list T) (t : T) (st : run_state T)
    : option (run_state T) :=
  match fuel with
  | O => None
  | S f =>
      if decide (t ∈ completed st) then Some st
      else if decide (t ∈ running) then None
      else match fold_opt (run_task f (t :: running)) (prereqs t) st with
           | Some st' => Some (Build_run_state (t :: completed st') (order st' ++ [t]))
           | None => None
           end
  end.

(** One invocation: the requested tasks, in order, in one ExecutionRun. *)
Definition run_tasks (fuel : nat) (roots : list T) : option (run_state T) :=
  fold_opt (run_task fuel []) roots init_state.

(** Every prerequisite of a task comes before it in [l]. *)
Definition prereqs_first (l : list T) : Prop :=
  forall l1 x l2, l = l1 ++ x :: l2 -> forall p, p ∈ prereqs x -> p ∈ l1.

(** The state invariant of an ExecutionRun. *)
Definition run_inv (st : run_state T) : Prop :=
  (forall x, In x (completed st) <-> In x (order st)) /\
  NoDup (order st) /\ prereqs_first (order st).

(** What one driven task does to the state: the invariant holds, the task
    is completed, and bodies only ran for tasks not in [running]. *)
Definition run_task_post (running : list T) (t : T) (st st' : run_state T) : Prop :=
  run_inv st' /\ In t (completed st') /\
  exists l, order st' = order st ++ l /\ Forall (fun x => ~ In x running) l.

End Scheduler.

(** The depth of each task in the graph of tasks.py. *)
Definition depth (t : task) : nat :=
  match t with
  | sanitize_git | install_conda | write_version => 0
  | setup_conda_env => 1
  | install_requirements | nuclear => 2
  | build_packages => 3
  | lint_static | build_inplace | deploy => 4
  | test_inplace | lint_dynamic | build_docs => 5
  | upload_coverage | upload_docs_git => 6
  | quality => 7
  | robot => 8
  end.

(* ===================================================================== *)
(** ** Environment, tools, pinning, requirements, exports and assets *)
(* ===================================================================== *)

(** Python exceptions raised by the modelled code. *)
Inductive pyexc :=
| KeyError (key : pystr)
| AttributeError (name : string)
| IndexError
| TypeError
| Failure (message : pystr)
| FileNotFoundError (filename : pystr).

(** A call that returns a value or raises. *)
Inductive pyresult (A : Type) :=
| Return (a : A)
| Throw (e : pyexc).
Arguments Return {A} a.
Arguments Throw {A} e.

(** [os.environ] *)
Abbreviation environ := (gmap pystr pystr).

(** [str.startswith(prefix)] *)
Definition starts_with (prefix x : pystr) : bool :=
  bool_decide (firstn (length prefix) x = prefix).

(** [check_env_var(name)] (utils.py) *)
Definition check_env_var (env : environ) (name : pystr) : pystr :=
  match env !! name with
  | None => lit "The environment variable " ++ name ++ lit " is not set."
  | Some v =>
      if pystr_eqb v [] then lit "The environment variable " ++ name ++ lit " is empty."
      else lit "The environment variable " ++ name ++ lit " is not empty."
  end.

(** [update_env_command(ctx, command)] (utils.py) from the point where the
    environment dumped by the shell, [newenv], has been loaded: every item of
    [newenv] is copied into [os.environ], then every key of [os.environ] that
    is not in [newenv] is deleted. *)
Definition update_env (env newenv : environ) : environ :=
  let env1 := fold_left (fun e kv => <[kv.1 := kv.2]> e) (map_to_list newenv) env in
  let removed_keys :=
    List.filter (fun k => match newenv !! k with Some _ => false | None => true end)
      (map fst (map_to_list env1)) in
  fold_left (fun e k => delete k e) removed_keys env1.

(** [clean_env()] inside [conda_deactivate] (utils.py). *)
Definition clean_env (env : environ) : environ :=
  let env := match env !! lit "HOST" with
             | Some _ => delete (lit "HOST") env
             | None => env
             end in
  fold_left (fun e name => if starts_with (lit "CONDA_") name then delete name e else e)
    (map fst (map_to_list env)) env.

Section CondaDeactivate.

(** The environment the shell dumps after running the deactivate command
    built from [CONDA_EXE] ([. <base>/etc/profile.d/conda.sh; conda
    deactivate]), started from the given environment. *)
Variable deactivate_shell : pystr -> environ -> environ.

(** [while "CONDA_PREFIX" in os.environ: update_env_command(ctx, command)];
    [None] when the loop has not ended within [fuel] rounds. *)
Fixpoint deactivate_loop (fuel : nat) (conda_exe : pystr) (env : environ) : option environ :=
  match fuel with
  | O => None
  | S f =>
      match env !! lit "CONDA_PREFIX" with
      | Some _ => deactivate_loop f conda_exe (update_env env (deactivate_shell conda_exe env))
      | None => Some env
      end
  end.

(** [conda_deactivate(ctx, iterate)] (utils.py) *)
Definition conda_deactivate (fuel : nat) (iterate : bool) (env : environ)
    : option (pyresult environ) :=
  match env !! lit "CONDA_PREFIX" with
  | None => Some (Return (clean_env env))
  | Some _ =>
      match env !! lit "CONDA_EXE" with
      | None => Some (Throw (KeyError (lit "CONDA_EXE")))
      | Some conda_exe =>
          let env1 := update_env env (deactivate_shell conda_exe env) in
          if iterate then
            match deactivate_loop fuel conda_exe env1 with
            | Some env2 => Some (Return (clean_env env2))
            | None => None
            end
          else Some (Return env1)
      end
  end.

End CondaDeactivate.

(** Values of a tool's configuration (a dict in the configuration tree). *)
Inductive tval :=
| TNone
| TBool (b : bool)
| TStr (x : pystr)
| TList (l : list pystr)
| TDict (d : list (pystr * pystr)).

#[global] Instance tval_eq_dec : EqDecision tval.
Proof. solve_decision. Defined.

(** One tool of [ctx.tools]. *)
Abbreviation tool := (gmap string tval).

(** [ctx.tools], keyed by tool name. *)
Abbreviation registry := (gmap pystr tool).

(** [for x in v] over a package value: a list, or the characters of a str. *)
Definition pval_iter (v : pval) : pyresult (list pystr) :=
  match v with
  | PList l => Return l
  | PStr s => Return (map (fun c => [c]) s)
  | _ => Throw TypeError
  end.

(** [for x in v] over a tool value: a list, the characters of a str, the
    keys of a dict. *)
Definition tval_iter (v : tval) : pyresult (list pystr) :=
  match v with
  | TList l => Return l
  | TStr s => Return (map (fun c => [c]) s)
  | TDict d => Return (map fst d)
  | _ => Throw TypeError
  end.

(** The inner loop of [iter_packages_tools] (utils.py) over the tool names
    of one package: [tool = ctx.tools[toolname]; tool.name = toolname;
    if task in ('__all__', tool.task): yield ...].  The generator's run is
    the registry after the [tool.name] assignments, the yielded
    (tool, package) pairs, and the exception that ended it, if any. *)
Fixpoint iter_tools (reg : registry) (task : pystr) (pkg : package) (names : list pystr)
    : registry * list (tool * package) * option pyexc :=
  match names with
  | [] => (reg, [], None)
  | toolname :: rest =>
      match reg !! toolname with
      | None => (reg, [], Some (KeyError toolname))
      | Some tool0 =>
          let tool := <["name"%string := TStr toolname]> tool0 in
          let reg := <[toolname := tool]> reg in
          match tool !! "task"%string with
          | None => (reg, [], Some (AttributeError "task"))
          | Some tool_task =>
              let '(reg', ys, err) := iter_tools reg task pkg rest in
              if pystr_eqb task (lit "__all__") || bool_decide (tool_task = TStr task)
              then (reg', (tool, pkg) :: ys, err)
              else (reg', ys, err)
          end
      end
  end.

(** [iter_packages_tools(ctx, task)] over [ctx.project.packages]. *)
Fixpoint iter_packages_tools (reg : registry) (task : pystr) (pkgs : list package)
    : registry * list (tool * package) * option pyexc :=
  match pkgs with
  | [] => (reg, [], None)
  | pkg :: rest =>
      match pkg !! "tools"%string with
      | None => (reg, [], Some (AttributeError "tools"))
      | Some v =>
          match pval_iter v with
          | Throw e => (reg, [], Some e)
          | Return names =>
              let '(reg1, ys1, err1) := iter_tools reg task pkg names in
              match err1 with
              | Some e => (reg1, ys1, Some e)
              | None =>
                  let '(reg2, ys2, err2) := iter_packages_tools reg1 task rest in
                  (reg2, ys1 ++ ys2, err2)
              end
          end
      end
  end.

(** The loop body of [run_all_commands] (utils.py) over the yielded pairs:
    [with ctx.cd(package.path): for command in tool.get(commands_name, []):
    ctx.run(command.format( **fmtkargs))].  Each run is recorded as the
    working directory and the command template; the commands run before an
    exception are kept. *)
Fixpoint run_items (commands_name : string) (items : list (tool * package))
    : list (pystr * pystr) * option pyexc :=
  match items with
  | [] => ([], None)
  | (tool, pkg) :: rest =>
      match pkg !! "path"%string with
      | None => ([], Some (AttributeError "path"))
      | Some pv =>
          match match tool !! commands_name with
                | Some v => tval_iter v
                | None => Return []
                end with
          | Throw e => ([], Some e)
          | Return [] => run_items commands_name rest
          | Return commands =>
              match pv with
              | PStr path =>
                  let '(rs, err) := run_items commands_name rest in
                  (map (fun c => (path, c)) commands ++ rs, err)
              | _ => ([], Some TypeError)
              end
          end
      end
  end.

(** [run_all_commands(ctx, task, commands_name)]: the generator is driven by
    the loop, so its exception comes after the commands of the pairs it
    yielded. *)
Definition run_all_commands (reg : registry) (pkgs : list package) (task : pystr)
    (commands_name : string) : list (pystr * pystr) * option pyexc :=
  let '(_, items, err) := iter_packages_tools reg task pkgs in
  let '(rs, err') := run_items commands_name items in
  match err' with
  | Some e => (rs, Some e)
  | None => (rs, err)
  end.

(** The task field of each registered tool, the part of the registry the
    generator reads back. *)
Definition task_view (reg : registry) (n : pystr) : option (option tval) :=
  option_map (fun t => t !! "task"%string) (reg !! n).

(** Whether [iter_packages_tools] yields the tool named [n] for [task]. *)
Definition tool_matches (reg : registry) (task : pystr) (n : pystr) : bool :=
  pystr_eqb task (lit "__all__") || bool_decide (task_view reg n = Some (Some (TStr task))).

(** The tool names listed by a package (none unless a list). *)
Definition package_tool_names (pkg : package) : list pystr :=
  match pkg !! "tools"%string with
  | Some (PList l) => l
  | _ => []
  end.

(** Every package lists its tools in a list, and each listed tool is
    registered with a task. *)
Definition tools_wf (reg : registry) (pkgs : list package) : Prop :=
  Forall (fun pkg => (exists l, pkg !! "tools"%string = Some (PList l)) /\
    Forall (fun n => exists tt, task_view reg n = Some (Some tt)) (package_tool_names pkg)) pkgs.

(** [ctx.tools[n][k]], when both exist. *)
Definition field (reg : registry) (n : pystr) (k : string) : option tval :=
  match reg !! n with Some t => t !! k | None => None end.

(** [str.split(sep)] generalised to a class of separator characters. *)
Fixpoint split_on (p : ascii -> bool) (x : pystr) : list pystr :=
  match x with
  | [] => [[]]
  | c :: r =>
      let ws := split_on p r in
      if p c then [] :: ws
      else match ws with
           | w :: ws' => (c :: w) :: ws'
           | [] => [[c]]
           end
  end.

(** [str.split()] with no argument: runs of whitespace separate the words
    and no empty word is kept. *)
Definition split_ws (x : pystr) : list pystr :=
  List.filter (fun w => match w with [] => false | _ => true end) (split_on is_space x).

(** [l[::2]] *)
Fixpoint every_other {A} (l : list A) : list A :=
  match l with
  | [] => []
  | [x] => [x]
  | x :: _ :: r => x :: every_other r
  end.

(** [l[1::2]] *)
Definition every_other1 {A} (l : list A) : list A := every_other (tl l).

(** The pinning check of [setup_conda_env] (tasks.py): the characters
    "=<>!*" are tested in this order, then the word count, then the
    requirements [name=version] are built from [zip(words[::2], words[1::2])]. *)
Definition setup_pinning (pinning : pystr) : pyresult (list pystr) :=
  match List.find (fun c => existsb (ascii_eqb c) pinning) (lit "=<>!*") with
  | Some c => Throw (Failure (lit "Character '" ++ [c] ++ lit "' should not be used in pinning."))
  | None =>
      let pinned_words := split_ws pinning in
      if Nat.odd (length pinned_words) then
        Throw (Failure (lit "Pinning config should be an even number of words, alternating " ++
                        lit "package names and versions, without wildcards."))
      else
        Return (map (fun nv => nv.1 ++ lit "=" ++ nv.2)
                  (combine (every_other pinned_words) (every_other1 pinned_words)))
  end.

(** The environment name of [RobertoConfig._finalize] (config.py). *)
Definition env_name (project_name pinning : pystr) : pystr :=
  project_name ++ lit "-dev" ++
  match pinning with
  | [] => []
  | _ => lit "-" ++ join_sep "-"%char (split_ws pinning)
  end.

(** [str.replace(old, new)] with one-character arguments. *)
Definition replace_char (old new : ascii) (x : pystr) : pystr :=
  map (fun c => if ascii_eqb c old then new else c) x.

(** [l[-n:]] *)
Definition last_n {A} (n : nat) (l : list A) : list A := skipn (length l - n) l.

(** The slug of [upload_docs_git] (tasks.py):
    ['/'.join(giturl.replace(':', '/').split('/')[-2:])]. *)
Definition git_slug (giturl : pystr) : pystr :=
  join_sep "/"%char (last_n 2 (py_split "/"%char (replace_char ":"%char "/"%char giturl))).

(** Python's [str] order: lexicographic on the code points. *)
Fixpoint str_ltb (x y : pystr) : bool :=
  match x, y with
  | [], [] => false
  | [], _ :: _ => true
  | _ :: _, [] => false
  | a :: x', b :: y' =>
      (nat_of_ascii a <? nat_of_ascii b) ||
      ((nat_of_ascii a =? nat_of_ascii b) && str_ltb x' y')
  end.

(** [x <= y] on [str], the order [sorted] produces. *)
Definition str_le (x y : pystr) : Prop := str_ltb y x = false.

#[global] Instance str_le_dec : RelDecision str_le.
Proof. intros x y. unfold str_le. apply _. Defined.

(** [sorted(l)] on a list of [str]. *)
Definition py_sorted (l : list pystr) : list pystr := merge_sort str_le l.

(** [sorted(set(l))] *)
Definition sorted_set (l : list pystr) : list pystr := py_sorted (remove_dups l).

(** [os.path.join(a, b)] (posixpath). *)
Definition path_join (a b : pystr) : pystr :=
  match b with
  | "/"%char :: _ => b
  | _ => match a with
         | [] => b
         | _ => if ascii_eqb (List.last a " "%char) "/"%char then a ++ b else a ++ lit "/" ++ b
         end
  end.

(** [tool.get(field, [])] iterated by [set.update]. *)
Definition requirements_of (t : tool) (field : string) : pyresult (list pystr) :=
  match t !! field with
  | None => Return []
  | Some v => tval_iter v
  end.

(** A loop over [l] whose body returns two lists that extend two
    accumulators, stopped by the first exception. *)
Fixpoint extend_all {A B C : Type} (f : A -> pyresult (list B * list C)) (l : list A)
    : pyresult (list B * list C) :=
  match l with
  | [] => Return ([], [])
  | x :: rest =>
      match f x with
      | Throw e => Throw e
      | Return (bs, cs) =>
          match extend_all f rest with
          | Throw e => Throw e
          | Return (bs', cs') => Return (bs ++ bs', cs ++ cs')
          end
      end
  end.

(** [[ctx.tools[toolname] for toolname in names]] *)
Fixpoint lookup_tools (reg : registry) (names : list pystr) : pyresult (list tool) :=
  match names with
  | [] => Return []
  | n :: rest =>
      match reg !! n with
      | None => Throw (KeyError n)
      | Some t =>
          match lookup_tools reg rest with
          | Throw e => Throw e
          | Return ts => Return (t :: ts)
          end
      end
  end.

(** The body of the package loop of [install_requirements] (tasks.py): the
    package's tools, then its recipe directory
    [os.path.join(package.path, "tools", "conda.recipe")] if it is a
    directory ([isdir] is the file system's [os.path.isdir]). *)
Definition scan_package (reg : registry) (isdir : pystr -> bool) (pkg : package)
    : pyresult (list tool * list pystr) :=
  match pkg !! "tools"%string with
  | None => Throw (AttributeError "tools")
  | Some v =>
      match pval_iter v with
      | Throw e => Throw e
      | Return names =>
          match lookup_tools reg names with
          | Throw e => Throw e
          | Return ts =>
              match pkg !! "path"%string with
              | None => Throw (AttributeError "path")
              | Some (PStr path) =>
                  let recipe_dir := path_join (path_join path (lit "tools")) (lit "conda.recipe") in
                  Return (ts, if isdir recipe_dir then [recipe_dir] else [])
              | Some _ => Throw TypeError
              end
          end
      end
  end.

(** The body of [for tool in tools: conda_packages.update(...);
    pip_packages.update(...)]. *)
Definition tool_requirements (t : tool) : pyresult (list pystr * list pystr) :=
  match requirements_of t "conda_requirements" with
  | Throw e => Throw e
  | Return cs =>
      match requirements_of t "pip_requirements" with
      | Throw e => Throw e
      | Return ps => Return (cs, ps)
      end
  end.

(** The inputs of [compute_req_hash] in [install_requirements]: the sorted
    conda packages (with conda, conda-build and pip added), the sorted
    recipe directories and the sorted pip packages. *)
Definition install_inputs (reg : registry) (isdir : pystr -> bool) (project : tool)
    (pkgs : list package) : pyresult (list pystr * list pystr * list pystr) :=
  match extend_all (scan_package reg isdir) pkgs with
  | Throw e => Throw e
  | Return (tools, recipe_dirs) =>
      match extend_all tool_requirements (project :: tools) with
      | Throw e => Throw e
      | Return (conda_reqs, pip_reqs) =>
          Return (sorted_set (lit "conda" :: lit "conda-build" :: lit "pip" :: conda_reqs),
                  py_sorted recipe_dirs, sorted_set pip_reqs)
      end
  end.

(** [req_hash] of [install_requirements]. *)
Definition install_req_hash (fs : filesystem) (reg : registry) (isdir : pystr -> bool)
    (project : tool) (pkgs : list package) : pyresult pystr :=
  match install_inputs reg isdir project pkgs with
  | Throw e => Throw e
  | Return (c, r, p) => Return (compute_req_hash fs c r p)
  end.

(** The two [conda install] commands of [install_requirements]: the packages
    starting with "conda" go to the base environment, the others to the
    development environment. *)
Definition conda_install_split (conda_packages : list pystr) : list pystr * list pystr :=
  (List.filter (starts_with (lit "conda")) conda_packages,
   List.filter (fun p => negb (starts_with (lit "conda") p)) conda_packages).

(** [skip_install] of [install_requirements]: the skip file, if it exists,
    with its modification time and content, the current time and the
    requirements hash. *)
Definition skip_install (skip_file : option (Q * pystr)) (now : Q) (req_hash : pystr) : bool :=
  match skip_file with
  | None => false
  | Some (mtime, content) =>
      if Qlt_le_dec (now - mtime) (24 * 3600) then pystr_eqb (strip content) req_hash
      else false
  end.

(** The content written to the skip file: [req_hash + '\n']. *)
Definition skip_file_content (req_hash : pystr) : pystr := req_hash ++ [newline].

(** The loop of [install_requirements] over the requirements of a rendered
    recipe (the lists of its build, host and run sections, in this order):
    [words = requirement.split()]; [words[0]] raises [IndexError] on a blank
    requirement; the first two words are added to the set unless the first
    one names a package of the project. The set is a list without
    duplicates in insertion order. *)
Fixpoint add_requirements (own : list pystr) (reqs : list pystr) (acc : list pystr)
    : pyresult (list pystr) :=
  match reqs with
  | [] => Return acc
  | requirement :: rest =>
      match split_ws requirement with
      | [] => Throw IndexError
      | (w0 :: _) as words =>
          let acc :=
            if bool_decide (w0 ∈ own) then acc
            else
              let x := join_sep " "%char (firstn 2 words) in
              if bool_decide (x ∈ acc) then acc else acc ++ [x] in
          add_requirements own rest acc
      end
  end.

(** The value of a call known to return. *)
Definition get_ok {A} (d : A) (r : pyresult A) : A :=
  match r with Return a => a | Throw _ => d end.

(** The double quote character. *)
Definition dq : ascii := ascii_of_nat 34.

(** [d.setdefault(name, []).append(value)] on a dict of lists, kept as an
    association list in insertion order. *)
Fixpoint setdefault_append (d : list (pystr * list pystr)) (name value : pystr)
    : list (pystr * list pystr) :=
  match d with
  | [] => [(name, [value])]
  | (k, vs) :: rest =>
      if pystr_eqb k name then (k, vs ++ [value]) :: rest
      else (k, vs) :: setdefault_append rest name value
  end.

(** The state of the export loop of [build_inplace] (tasks.py):
    [os.environ], [extra_paths] and [extra_flags]. *)
Record export_state := {
  st_env : environ;
  st_extra_paths : list (pystr * list pystr);
  st_extra_flags : list (pystr * list pystr)
}.

(** [current = os.environ.get(name, ""); if current != '': current += separator] *)
Definition sep_prefix (sep : ascii) (cur : option pystr) : pystr :=
  let current := match cur with Some c => c | None => [] end in
  if pystr_eqb current [] then current else current ++ [sep].

(** The body of [for name, value in export_vars.items()], with the value
    already formatted. *)
Definition export_var (sep : ascii) (st : export_state) (name value : pystr) : export_state :=
  let extra_paths := setdefault_append (st_extra_paths st) name value in
  {| st_env := <[name := sep_prefix sep (st_env st !! name) ++ value]> (st_env st);
     st_extra_paths := extra_paths;
     st_extra_flags := st_extra_flags st |}.

(** [tool.get(k, {}).items()] *)
Definition export_items (t : tool) (k : string) : pyresult (list (pystr * pystr)) :=
  match t !! k with
  | None => Return []
  | Some (TDict d) => Return d
  | Some _ => Throw (AttributeError "items")
  end.

Section BuildInplace.

(** [str.format( **fmtkargs)] with the formatting arguments of a package. *)
Variable format : package -> pystr -> pystr.

(** The loop over the items of one export dict. *)
Definition export_all (sep : ascii) (pkg : package) (nvs : list (pystr * pystr))
    (st : export_state) : export_state :=
  fold_left (fun st nv => export_var sep st nv.1 (format pkg nv.2)) nvs st.

(** One pass of [for tool, package, fmtkargs in iter_packages_tools(ctx,
    "build-inplace")] after the tool's commands have run: the export paths
    with ':' and the export flags with ' '. *)
Definition build_inplace_step (st : export_state) (item : tool * package)
    : pyresult export_state :=
  let '(t, pkg) := item in
  match export_items t "export_paths" with
  | Throw e => Throw e
  | Return paths =>
      let st := export_all ":"%char pkg paths st in
      match export_items t "export_flags" with
      | Throw e => Throw e
      | Return flags => Return (export_all " "%char pkg flags st)
      end
  end.

Fixpoint build_inplace_exports (items : list (tool * package)) (st : export_state)
    : pyresult export_state :=
  match items with
  | [] => Return st
  | item :: rest =>
      match build_inplace_step st item with
      | Throw e => Throw e
      | Return st => build_inplace_exports rest st
      end
  end.

End BuildInplace.

(** The lines written for one variable of [extra_vars] in the activation
    script [activate-*.sh]. *)
Definition export_lines (sep : ascii) (name : pystr) (values : list pystr) : list pystr :=
  [lit "if [[ -n " ++ [dq] ++ lit "${" ++ name ++ lit "}" ++ [dq] ++ lit " ]]; then";
   lit "  export " ++ name ++ lit "=" ++ [dq] ++ join_sep sep values ++ [sep] ++
     lit "${" ++ name ++ lit "}" ++ [dq];
   lit "else";
   lit "  export " ++ name ++ lit "=" ++ [dq] ++ join_sep sep values ++ [dq];
   lit "fi"].

(** [for extra_vars, separator in [(extra_paths, ':'), (extra_flags, ' ')]]
    in the activation script. *)
Definition activate_exports (st : export_state) : list pystr :=
  flat_map (fun nv => export_lines ":"%char nv.1 nv.2) (st_extra_paths st) ++
  flat_map (fun nv => export_lines " "%char nv.1 nv.2) (st_extra_flags st).

(** The (separator, name, formatted value) triples the export loop
    processes, in order, when no exception is raised. *)
Definition exports_seq (format : package -> pystr -> pystr) (items : list (tool * package))
    : list (ascii * pystr * pystr) :=
  flat_map (fun item =>
    map (fun nv => (":"%char, nv.1, format item.2 nv.2)) (get_ok [] (export_items item.1 "export_paths")) ++
    map (fun nv => (" "%char, nv.1, format item.2 nv.2)) (get_ok [] (export_items item.1 "export_flags")))
    items.

(** The values exported for [name], in order. *)
Definition values_for (name : pystr) (s : list (ascii * pystr * pystr)) : list pystr :=
  map snd (List.filter (fun x => pystr_eqb x.1.2 name) s).

(** The first entry for [name] of an association list. *)
Fixpoint assoc_lookup (d : list (pystr * list pystr)) (name : pystr) : option (list pystr) :=
  match d with
  | [] => None
  | (k, vs) :: rest => if pystr_eqb k name then Some vs else assoc_lookup rest name
  end.

(** The value of a variable after appending [vs] with [sep] as the loop does. *)
Definition append_all (sep : ascii) (cur : option pystr) (vs : list pystr) : option pystr :=
  fold_left (fun c v => Some (sep_prefix sep c ++ v)) vs cur.

(** [iter(lambda: f.read(4096), b"")]: the chunks read until the empty
    read; [fuel] bounds the number of reads. *)
Fixpoint read_chunks (fuel : nat) (data : list byte) : list (list byte) :=
  match fuel with
  | O => []
  | S f =>
      match data with
      | [] => []
      | _ => firstn 4096 data :: read_chunks f (skipn 4096 data)
      end
  end.

(** [write_sha256_sum(fn_asset)] (utils.py) over a file system mapping names
    to contents: the returned name and the content written to it. A file
    of n bytes is read in at most n + 1 reads. *)
Definition write_sha256_sum (files : pystr -> option (list byte)) (fn_asset : pystr)
    : pyresult (pystr * pystr) :=
  match files fn_asset with
  | None => Throw (FileNotFoundError fn_asset)
  | Some data =>
      let hasher := fold_left hasher_update (read_chunks (S (length data)) data) [] in
      let fn_sha256 := fn_asset ++ lit ".sha256" in
      let line := hasher_hexdigest hasher ++ lit "  " ++ fn_asset in
      Return (fn_sha256, line ++ [newline])
  end.

(** [str.endswith(suffix)] *)
Definition ends_with (suffix x : pystr) : bool :=
  bool_decide (length suffix <= length x /\ skipn (length x - length suffix) x = suffix).

(** The assets of [deploy] (tasks.py) for a list of (formatted) patterns:
    [glob(pattern)] without the names ending in "sha256". *)
Definition collect_assets (glob : pystr -> list pystr) (patterns : list pystr) : list pystr :=
  flat_map (fun pattern => List.filter (fun fn => negb (ends_with (lit "sha256") fn)) (glob pattern))
    patterns.

(** A recipe directory with one file. *)
Definition fs_recipe : filesystem :=
  fs_with (fun _ => []) (lit "recipe")
    [{| entry_name := lit "foo"; kind := RegularFile (encode_utf8 (lit "bar")) |}].

Example parse_1_2_3 :
  parse_git_describe (lit "1.2.3") =
  Ok {| describe := lit "1.2.3"; tag := lit "1.2.3"; tag_version := lit "1.2.3";
        tag_soversion := lit "1.2"; tag_version_major := lit "1";
        tag_version_minor := lit "2"; tag_version_patch := lit "3";
        tag_version_suffix := []; tag_stable := true; tag_test := false;
        tag_dev := false; tag_release := true; deploy_label := Some (lit "main") |}.
Proof. reflexivity. Qed.

Example parse_2_7_0_3_foo :
  parse_git_describe (lit "2.7.0-3-foo") =
  Ok {| describe := lit "2.7.0-3-foo"; tag := lit "2.7.0"; tag_version := lit "2.7.0.post3";
        tag_soversion := lit "2.7"; tag_version_major := lit "2";
        tag_version_minor := lit "7"; tag_version_patch := lit "0";
        tag_version_suffix := lit ".post3"; tag_stable := false; tag_test := false;
        tag_dev := false; tag_release := false; deploy_label := None |}.
Proof. reflexivity. Qed.

Example sha256_abc :
  SHA256.hexdigest (encode_utf8 (lit "abc")) =
  lit "ba7816bf8f01cfea414140de5dae2223b00361a396177a9cb410ff61f20015ad".
Proof. vm_compute. reflexivity. Qed.

Example sha256_empty :
  SHA256.hexdigest [] =
  lit "e3b0c44298fc1c149afbf4c8996fb92427ae41e4649b934ca495991b7852b855".
Proof. vm_compute. reflexivity. Qed.

(** The vector of test_write_sha256_sum_1 (b"foobar\n"). *)
Example sha256_foobar :
  SHA256.hexdigest (encode_utf8 (lit "foobar" ++ [newline])) =
  lit "aec070645fe53ee3b3763059376134f058cc337247c978add178b6ccdfb0019f".
Proof. vm_compute. reflexivity. Qed.

(** Two blocks of padding (56 bytes). *)
Example sha256_two_blocks :
  SHA256.hexdigest (encode_utf8 (lit "abcdbcdecdefdefgefghfghighijhijkijkljklmklmnlmnomnopnopq")) =
  lit "248d6a61d20638b8e5c026930c3e6039a33ce45964ff2167f6ecedd419db06c1".
Proof. vm_compute. reflexivity. Qed.

Example run_quality :
  run_tasks pre 20 [quality] =
  Some (Build_run_state
    [quality; build_docs; lint_dynamic; upload_coverage; test_inplace; build_inplace;
     lint_static; write_version; sanitize_git; install_requirements; setup_conda_env;
     install_conda]
    [install_conda; setup_conda_env; install_requirements; sanitize_git; write_version;
     lint_static; build_inplace; test_inplace; upload_coverage; lint_dynamic; build_docs;
     quality]).
Proof. vm_compute. reflexivity. Qed.

Lemma ascii_eqb_true (a b : ascii) : ascii_eqb a b = true <-> a = b.
Proof. unfold ascii_eqb. destruct (ascii_dec a b); split; congruence. Qed.

Lemma isnumeric_spec (x : pystr) :
  isnumeric x = true <-> x <> [] /\ Forall (fun c => is_digit c = true) x.
Proof.
  destruct x as [|c r].
  - simpl. split; [discriminate | intros [[] _]; reflexivity].
  - unfold isnumeric. rewrite forallb_forall, List.Forall_forall.
    split; [intros H; split; [discriminate | exact H] | intros [_ H]; exact H].
Qed.

Lemma fullmatch_letter_digits_spec (c : ascii) (x : pystr) :
  fullmatch_letter_digits c x = true <->
  exists n, x = c :: n /\ n <> [] /\ Forall (fun d => is_digit d = true) n.
Proof.
  destruct x as [|c' r]; simpl.
  - split; [discriminate | intros (n & Hn & _); discriminate].
  - rewrite andb_true_iff, ascii_eqb_true, isnumeric_spec. split.
    + intros [-> H]. exists r. tauto.
    + intros (n & Hn & H). injection Hn as -> ->. tauto.
Qed.

Lemma py_split_not_nil (sep : ascii) (x : pystr) : py_split sep x <> [].
Proof.
  destruct x as [|c r]; simpl; [discriminate|].
  destruct (ascii_eqb c sep); [discriminate|]. destruct (py_split sep r); discriminate.
Qed.

Lemma parse_ok_inv (d : pystr) (i : version_info) :
  parse_git_describe d = Ok i ->
  exists major minor last_part patch suffix0,
    py_split "."%char (hd [] (py_split "-"%char (strip d))) = [major; minor; last_part] /\
    fullmatch_patch last_part = Some (patch, suffix0) /\
    isnumeric minor = true /\ isnumeric major = true /\
    let suffix := match py_split "-"%char (strip d) with
                  | _ :: w1 :: _ => suffix0 ++ lit ".post" ++ w1
                  | _ => suffix0
                  end in
    let stable := match suffix with [] => true | _ => false end in
    let test := fullmatch_letter_digits "b"%char suffix in
    let dev := fullmatch_letter_digits "a"%char suffix in
    i = {| describe := strip d;
           tag := hd [] (py_split "-"%char (strip d));
           tag_version := major ++ dot ++ minor ++ dot ++ patch ++ suffix;
           tag_soversion := major ++ dot ++ minor;
           tag_version_major := major;
           tag_version_minor := minor;
           tag_version_patch := patch;
           tag_version_suffix := suffix;
           tag_stable := stable;
           tag_test := test;
           tag_dev := dev;
           tag_release := stable || test || dev;
           deploy_label :=
             if stable then Some (lit "main")
             else if test then Some (lit "test")
             else if dev then Some (lit "dev")
             else None |}.
Proof.
  unfold parse_git_describe.
  destruct (py_split "."%char (hd [] (py_split "-"%char (strip d))))
    as [|major [|minor [|last_part [|]]]] eqn:Hsp; try discriminate.
  destruct (fullmatch_patch last_part) as [[patch suffix0]|] eqn:Hfm; [|discriminate].
  destruct (isnumeric minor) eqn:Hmi; [|discriminate].
  destruct (isnumeric major) eqn:Hma; [|discriminate].
  simpl. intros H. injection H as <-.
  exists major, minor, last_part, patch, suffix0. repeat split; first [assumption | reflexivity].
Qed.

(** The classification computed from a final suffix. *)
Lemma classify_suffix (sfx : pystr) (st te de rel : bool) (lbl : option pystr) :
  st = match sfx with [] => true | _ => false end ->
  te = fullmatch_letter_digits "b"%char sfx ->
  de = fullmatch_letter_digits "a"%char sfx ->
  rel = st || te || de ->
  lbl = (if st then Some (lit "main") else if te then Some (lit "test")
         else if de then Some (lit "dev") else None) ->
  (st = true <-> sfx = []) /\
  (te = true <-> exists n, sfx = "b"%char :: n /\ n <> [] /\ Forall (fun c => is_digit c = true) n) /\
  (de = true <-> exists n, sfx = "a"%char :: n /\ n <> [] /\ Forall (fun c => is_digit c = true) n) /\
  (rel = true <-> st = true \/ te = true \/ de = true) /\
  length (List.filter id [st; te; de; negb rel]) = 1 /\
  (st = true -> lbl = Some (lit "main")) /\
  (te = true -> lbl = Some (lit "test")) /\
  (de = true -> lbl = Some (lit "dev")) /\
  (rel = false -> lbl = None).
Proof.
  intros Hst Hte Hde Hrel Hlbl.
  rewrite <- !fullmatch_letter_digits_spec, <- Hte, <- Hde.
  assert (Hs : st = true <-> sfx = []) by (subst st; destruct sfx; split; congruence).
  split; [exact Hs|]. clear Hs.
  assert (Hexcl : te = true -> de = true -> False).
  { subst te de. destruct sfx as [|c r]; simpl; [discriminate|].
    rewrite !andb_true_iff, !ascii_eqb_true. intros [-> _] [H _]. discriminate H. }
  assert (Hste : st = true -> te = false /\ de = false).
  { subst st te de. destruct sfx; [|discriminate]. split; reflexivity. }
  subst rel lbl. clear Hst Hte Hde.
  destruct st, te, de; simpl;
    try (exfalso; now apply Hexcl);
    try (destruct (Hste eq_refl); discriminate);
    intuition congruence.
Qed.

(** Claim C2: for every describe string that parse_git_describe accepts,
    the suffix decides the class: tag_stable iff the suffix is empty,
    tag_test iff it is b<digits>, tag_dev iff it is a<digits>; tag_release
    is their disjunction; exactly one of stable, test, dev and non-release
    holds; the deploy label is main, test, dev or None accordingly. *)
Theorem parse_git_describe_classification (d : pystr) (i : version_info) :
  parse_git_describe d = Ok i ->
  (tag_stable i = true <-> tag_version_suffix i = []) /\
  (tag_test i = true <-> exists n, tag_version_suffix i = "b"%char :: n /\ n <> [] /\
                                   Forall (fun c => is_digit c = true) n) /\
  (tag_dev i = true <-> exists n, tag_version_suffix i = "a"%char :: n /\ n <> [] /\
                                  Forall (fun c => is_digit c = true) n) /\
  (tag_release i = true <-> tag_stable i = true \/ tag_test i = true \/ tag_dev i = true) /\
  length (List.filter id [tag_stable i; tag_test i; tag_dev i; negb (tag_release i)]) = 1 /\
  (tag_stable i = true -> deploy_label i = Some (lit "main")) /\
  (tag_test i = true -> deploy_label i = Some (lit "test")) /\
  (tag_dev i = true -> deploy_label i = Some (lit "dev")) /\
  (tag_release i = false -> deploy_label i = None).
Proof.
  intros H. apply parse_ok_inv in H.
  destruct H as (major & minor & last_part & patch & suffix0 & _ & _ & _ & _ & H).
  cbv zeta in H. subst i. cbn [tag_stable tag_test tag_dev tag_release tag_version_suffix deploy_label].
  apply classify_suffix; reflexivity.
Qed.

(** An accepted describe string with a b<digits> suffix. *)
Lemma parse_git_describe_classification_witness :
  exists i, parse_git_describe (lit "0.18.1b1") = Ok i /\
  ((tag_stable i = true <-> tag_version_suffix i = []) /\
   (tag_test i = true <-> exists n, tag_version_suffix i = "b"%char :: n /\ n <> [] /\
                                    Forall (fun c => is_digit c = true) n) /\
   (tag_dev i = true <-> exists n, tag_version_suffix i = "a"%char :: n /\ n <> [] /\
                                   Forall (fun c => is_digit c = true) n) /\
   (tag_release i = true <-> tag_stable i = true \/ tag_test i = true \/ tag_dev i = true) /\
   length (List.filter id [tag_stable i; tag_test i; tag_dev i; negb (tag_release i)]) = 1 /\
   (tag_stable i = true -> deploy_label i = Some (lit "main")) /\
   (tag_test i = true -> deploy_label i = Some (lit "test")) /\
   (tag_dev i = true -> deploy_label i = Some (lit "dev")) /\
   (tag_release i = false -> deploy_label i = None)).
Proof.
  eexists. split; [reflexivity|].
  apply (parse_git_describe_classification (lit "0.18.1b1")). reflexivity.
Defined.

Lemma py_split_join (sep : ascii) (x : pystr) : join_sep sep (py_split sep x) = x.
Proof.
  induction x as [|c r IH]; [reflexivity|]. simpl.
  pose proof (py_split_not_nil sep r) as Hne.
  destruct (ascii_eqb c sep) eqn:E.
  - apply ascii_eqb_true in E. subst c.
    destruct (py_split sep r) as [|w ws]; [contradiction|]. simpl. rewrite <- IH. reflexivity.
  - destruct (py_split sep r) as [|w ws]; [contradiction|].
    destruct ws as [|w' ws']; simpl in *; rewrite IH; reflexivity.
Qed.

Lemma span_digits_app (x d rest : pystr) : span_digits x = (d, rest) -> x = d ++ rest.
Proof.
  revert d rest. induction x as [|c r IH]; simpl; intros d rest H.
  - injection H as <- <-. reflexivity.
  - destruct (is_digit c).
    + destruct (span_digits r) as [d' rest'] eqn:E. injection H as <- <-.
      rewrite (IH _ _ eq_refl). reflexivity.
    + injection H as <- <-. reflexivity.
Qed.

Lemma fullmatch_patch_app (x patch suffix0 : pystr) :
  fullmatch_patch x = Some (patch, suffix0) -> x = patch ++ suffix0.
Proof.
  unfold fullmatch_patch. destruct (span_digits x) as [d rest] eqn:E.
  destruct d; [discriminate|]. destruct (existsb _ rest); [discriminate|].
  intros H. injection H as <- <-. exact (span_digits_app _ _ _ E).
Qed.

(** Claim C3: with a second '-'-separated word [w1], the suffix is the
    patch suffix followed by ".post" and [w1], and tag_test and tag_dev are
    full matches of b<digits> and a<digits> on that suffix; parsing
    "15.13.11a9-10" gives tag_version "15.13.11a9.post10", suffix
    "a9.post10", and the non-release class with deploy_label None. *)
Theorem parse_git_describe_post_suffix (d : pystr) (i : version_info)
    (tagw w1 : pystr) (rest : list pystr) :
  py_split "-"%char (strip d) = tagw :: w1 :: rest ->
  parse_git_describe d = Ok i ->
  (tag i = tagw /\
   exists suffix0,
     tag_version_suffix i = suffix0 ++ lit ".post" ++ w1 /\
     fullmatch_patch (tag_version_patch i ++ suffix0) = Some (tag_version_patch i, suffix0) /\
     py_split "."%char tagw =
       [tag_version_major i; tag_version_minor i; tag_version_patch i ++ suffix0] /\
     tag_version i = tagw ++ lit ".post" ++ w1 /\
     tag_stable i = false /\
     tag_test i = fullmatch_letter_digits "b"%char (tag_version_suffix i) /\
     tag_dev i = fullmatch_letter_digits "a"%char (tag_version_suffix i)) /\
  parse_git_describe (lit "15.13.11a9-10") =
  Ok {| describe := lit "15.13.11a9-10"; tag := lit "15.13.11a9";
        tag_version := lit "15.13.11a9.post10"; tag_soversion := lit "15.13";
        tag_version_major := lit "15"; tag_version_minor := lit "13";
        tag_version_patch := lit "11"; tag_version_suffix := lit "a9.post10";
        tag_stable := false; tag_test := false; tag_dev := false;
        tag_release := false; deploy_label := None |}.
Proof.
  intros Hw H. split; [|reflexivity].
  apply parse_ok_inv in H.
  destruct H as (major & minor & last_part & patch & suffix0 & Hsp & Hfm & _ & _ & H).
  cbv zeta in H. rewrite Hw in H, Hsp. simpl in Hsp. subst i. simpl.
  split; [reflexivity|]. exists suffix0.
  pose proof (fullmatch_patch_app _ _ _ Hfm) as Hlp. subst last_part.
  repeat split; try assumption.
  - rewrite <- (py_split_join "."%char tagw), Hsp. simpl.
    repeat (rewrite <- app_assoc || rewrite <- app_comm_cons). reflexivity.
  - destruct suffix0; reflexivity.
Qed.

(** The describe string "2.7.0-3-foo". *)
Lemma parse_git_describe_post_suffix_witness :
  exists i, py_split "-"%char (strip (lit "2.7.0-3-foo")) = [lit "2.7.0"; lit "3"; lit "foo"] /\
  parse_git_describe (lit "2.7.0-3-foo") = Ok i /\
  ((tag i = lit "2.7.0" /\
    exists suffix0,
      tag_version_suffix i = suffix0 ++ lit ".post" ++ lit "3" /\
      fullmatch_patch (tag_version_patch i ++ suffix0) = Some (tag_version_patch i, suffix0) /\
      py_split "."%char (lit "2.7.0") =
        [tag_version_major i; tag_version_minor i; tag_version_patch i ++ suffix0] /\
      tag_version i = lit "2.7.0" ++ lit ".post" ++ lit "3" /\
      tag_stable i = false /\
      tag_test i = fullmatch_letter_digits "b"%char (tag_version_suffix i) /\
      tag_dev i = fullmatch_letter_digits "a"%char (tag_version_suffix i)) /\
   parse_git_describe (lit "15.13.11a9-10") =
   Ok {| describe := lit "15.13.11a9-10"; tag := lit "15.13.11a9";
         tag_version := lit "15.13.11a9.post10"; tag_soversion := lit "15.13";
         tag_version_major := lit "15"; tag_version_minor := lit "13";
         tag_version_patch := lit "11"; tag_version_suffix := lit "a9.post10";
         tag_stable := false; tag_test := false; tag_dev := false;
         tag_release := false; deploy_label := None |}).
Proof.
  eexists. split; [reflexivity|]. split; [reflexivity|].
  apply (parse_git_describe_post_suffix (lit "2.7.0-3-foo") _ (lit "2.7.0") (lit "3") [lit "foo"]);
    reflexivity.
Defined.

Lemma fullmatch_patch_no_digit (x : pystr) :
  match x with c :: _ => is_digit c = false | [] => True end -> fullmatch_patch x = None.
Proof.
  unfold fullmatch_patch. destruct x as [|c r]; simpl; [reflexivity|].
  intros ->. reflexivity.
Qed.

(** Claim C4: parse_git_describe raises TagError when the tag does not
    split into three '.'-separated parts, when its last part does not start
    with a decimal digit, or when the major or minor part is not numeric;
    "1.2", "0.0.0.1", "0.0.foo", "0.foo.0" and "foo.0.0" all raise. *)
Theorem parse_git_describe_malformed (d : pystr) :
  (length (py_split "."%char (hd [] (py_split "-"%char (strip d)))) <> 3 \/
   exists major minor last_part,
     py_split "."%char (hd [] (py_split "-"%char (strip d))) = [major; minor; last_part] /\
     (match last_part with c :: _ => is_digit c = false | [] => True end \/
      isnumeric major = false \/ isnumeric minor = false)) ->
  (exists e, parse_git_describe d = Raise e) /\
  Forall (fun x => exists e, parse_git_describe (lit x) = Raise e)
    ["1.2"; "0.0.0.1"; "0.0.foo"; "0.foo.0"; "foo.0.0"]%string.
Proof.
  intros Hbad. split.
  2:{ repeat constructor; eexists; reflexivity. }
  unfold parse_git_describe.
  destruct Hbad as [Hlen | (major & minor & last_part & Hsp & Hwhy)].
  - destruct (py_split "."%char (hd [] (py_split "-"%char (strip d))))
      as [|major [|minor [|last_part [|]]]]; try (eexists; reflexivity).
    simpl in Hlen. lia.
  - rewrite Hsp.
    destruct (fullmatch_patch last_part) as [[patch suffix0]|] eqn:Hfm;
      [|eexists; reflexivity].
    destruct Hwhy as [Hnd | [Hma | Hmi]].
    + rewrite fullmatch_patch_no_digit in Hfm by exact Hnd. discriminate.
    + destruct (isnumeric minor); simpl; [rewrite Hma|]; eexists; reflexivity.
    + rewrite Hmi. eexists; reflexivity.
Qed.

(** The tag "1.2" has two parts. *)
Lemma parse_git_describe_malformed_witness :
  length (py_split "."%char (hd [] (py_split "-"%char (strip (lit "1.2"))))) <> 3 /\
  ((exists e, parse_git_describe (lit "1.2") = Raise e) /\
   Forall (fun x => exists e, parse_git_describe (lit x) = Raise e)
     ["1.2"; "0.0.0.1"; "0.0.foo"; "0.foo.0"; "foo.0.0"]%string).
Proof.
  split; [simpl; lia|].
  apply (parse_git_describe_malformed (lit "1.2")). left. simpl. lia.
Defined.

(** Claim C8: two describe strings whose stripped forms have the same first
    two '-'-separated words give the same result up to the describe field
    (the same TagError or the same version fields). *)
Theorem parse_git_describe_first_two_words (d1 d2 : pystr) :
  firstn 2 (py_split "-"%char (strip d1)) = firstn 2 (py_split "-"%char (strip d2)) ->
  outcome_without_describe (parse_git_describe d1) =
  outcome_without_describe (parse_git_describe d2).
Proof.
  intros Hw. unfold parse_git_describe.
  pose proof (py_split_not_nil "-"%char (strip d1)) as Hn1.
  pose proof (py_split_not_nil "-"%char (strip d2)) as Hn2.
  destruct (py_split "-"%char (strip d1)) as [|a1 [|b1 r1]];
    destruct (py_split "-"%char (strip d2)) as [|a2 [|b2 r2]];
    try contradiction; simpl in Hw; try discriminate Hw;
    injection Hw; intros; subst; simpl;
    (match goal with |- context [py_split "."%char ?a] =>
       destruct (py_split "."%char a) as [|x [|y [|z [|]]]] end; simpl; try reflexivity;
     destruct (fullmatch_patch z) as [[p s]|]; simpl; try reflexivity;
     destruct (isnumeric y), (isnumeric x); reflexivity).
Qed.

(** Two describe strings that differ in the commit id. *)
Lemma parse_git_describe_first_two_words_witness :
  firstn 2 (py_split "-"%char (strip (lit "2.7.0-3-gabc"))) =
    firstn 2 (py_split "-"%char (strip (lit "2.7.0-3-gdef"))) /\
  outcome_without_describe (parse_git_describe (lit "2.7.0-3-gabc")) =
  outcome_without_describe (parse_git_describe (lit "2.7.0-3-gdef")).
Proof.
  split; [reflexivity|].
  apply (parse_git_describe_first_two_words (lit "2.7.0-3-gabc") (lit "2.7.0-3-gdef")).
  reflexivity.
Defined.

Lemma lstrip_length (x : pystr) : length (lstrip x) <= length x.
Proof. induction x as [|c r IH]; simpl; [lia|]. destruct (is_space c); simpl; lia. Qed.

Lemma strip_length (x : pystr) : length (strip x) <= length x.
Proof.
  unfold strip, rstrip. rewrite length_rev.
  pose proof (lstrip_length (rev (lstrip x))) as H1. rewrite length_rev in H1.
  pose proof (lstrip_length x). lia.
Qed.

Lemma hd_split_app (sep : ascii) (y : pystr) :
  exists rest, y = hd [] (py_split sep y) ++ rest.
Proof.
  pose proof (py_split_join sep y) as Hj.
  pose proof (py_split_not_nil sep y) as Hne.
  destruct (py_split sep y) as [|w [|w' ws]]; [contradiction| |]; simpl in *.
  - exists []. rewrite app_nil_r. symmetry. exact Hj.
  - eexists. symmetry. exact Hj.
Qed.

Lemma hd_split_no_sep (sep : ascii) (y : pystr) : ~ In sep (hd [] (py_split sep y)).
Proof.
  induction y as [|c r IH]; simpl; [tauto|].
  destruct (ascii_eqb c sep) eqn:E; [simpl; tauto|].
  pose proof (py_split_not_nil sep r) as Hne.
  destruct (py_split sep r) as [|w ws]; [contradiction|]. simpl in *.
  intros [-> | H]; [|tauto]. rewrite (proj2 (ascii_eqb_true _ _) eq_refl) in E. discriminate.
Qed.

Lemma py_split_no_sep (sep : ascii) (x : pystr) : ~ In sep x -> py_split sep x = [x].
Proof.
  induction x as [|c r IH]; simpl; intros Hn; [reflexivity|].
  destruct (ascii_eqb c sep) eqn:E.
  - apply ascii_eqb_true in E. tauto.
  - rewrite IH by tauto. reflexivity.
Qed.

Lemma py_split_app_sep (sep : ascii) (x y : pystr) :
  ~ In sep x -> py_split sep (x ++ sep :: y) = x :: py_split sep y.
Proof.
  induction x as [|c r IH]; simpl; intros Hn.
  - rewrite (proj2 (ascii_eqb_true _ _) eq_refl). reflexivity.
  - destruct (ascii_eqb c sep) eqn:E.
    + apply ascii_eqb_true in E. tauto.
    + rewrite IH by tauto. reflexivity.
Qed.

Lemma strip_id (x : pystr) (c c' : ascii) (r r' : pystr) :
  x = c :: r -> x = r' ++ [c'] -> is_space c = false -> is_space c' = false -> strip x = x.
Proof.
  intros H1 H2 Hc Hc'. unfold strip, rstrip.
  assert (lstrip x = x) as -> by (rewrite H1; simpl; rewrite Hc; reflexivity).
  rewrite H2, rev_app_distr. simpl. rewrite Hc'. simpl. rewrite rev_involutive.
  reflexivity.
Qed.

(** Claim C9 (amended): for a valid tag [tg] (parsed with tag [tg]) and a
    non-empty second word [s] with no '-' and no trailing whitespace, the
    parse of [tg ++ "-" ++ s] succeeds with the tag's suffix followed by
    ".post" and [s] verbatim, whatever [s] holds. *)
Theorem parse_git_describe_post_verbatim (tg s : pystr) (i : version_info) :
  parse_git_describe tg = Ok i -> tag i = tg ->
  s <> [] -> ~ In "-"%char s -> is_space (List.last s " "%char) = false ->
  exists i', parse_git_describe (tg ++ "-"%char :: s) = Ok i' /\
             tag i' = tg /\
             tag_version_suffix i' = tag_version_suffix i ++ lit ".post" ++ s /\
             tag_version i' = tag_version i ++ lit ".post" ++ s.
Proof.
  intros Hp Htag Hsne Hsdash Hslast.
  pose proof Hp as Hinv. apply parse_ok_inv in Hinv.
  destruct Hinv as (major & minor & last_part & patch & suffix0 & Hsp & Hfm & Hmi & Hma & Hi).
  cbv zeta in Hi. subst i. simpl in Htag.
  (* the tag is the whole stripped input, with no dash *)
  assert (Hnd : ~ In "-"%char tg) by (rewrite <- Htag; apply hd_split_no_sep).
  assert (Hst : strip tg = tg).
  { destruct (hd_split_app "-"%char (strip tg)) as [rest Hr]. rewrite Htag in Hr.
    pose proof (strip_length tg) as Hl. rewrite Hr, length_app in Hl.
    destruct rest; [rewrite app_nil_r in Hr; exact Hr | simpl in Hl; lia]. }
  rewrite Hst in Hsp, Htag |- *. rewrite (py_split_no_sep _ _ Hnd) in Hsp |- *. simpl in Hsp |- *.
  assert (exists c r, tg = c :: r) as (c & r & Etg)
    by (destruct tg as [|c r]; [discriminate Hsp | eauto]).
  assert (Hc : is_space c = false).
  { destruct (is_space c) eqn:Ec; [|reflexivity]. exfalso.
    assert (length (lstrip tg) <= length r)
      by (rewrite Etg; simpl; rewrite Ec; apply lstrip_length).
    pose proof (lstrip_length (rev (lstrip tg))) as H2.
    assert (Hs2 := Hst). unfold strip, rstrip in Hs2.
    apply (f_equal (@length ascii)) in Hs2. rewrite length_rev in Hs2, H2.
    rewrite Etg in Hs2 at 2. change (length (c :: r)) with (S (length r)) in Hs2. lia. }
  destruct (@exists_last _ s Hsne) as [s' [c' Hs']].
  assert (Hc' : is_space c' = false) by (rewrite Hs', last_last in Hslast; exact Hslast).
  assert (Hstrip : strip (tg ++ "-"%char :: s) = tg ++ "-"%char :: s).
  { apply (strip_id _ c c' (r ++ "-"%char :: s) (tg ++ "-"%char :: s'))
      ; [rewrite Etg; reflexivity | | exact Hc | exact Hc'].
    rewrite Hs'. rewrite <- app_assoc. reflexivity. }
  unfold parse_git_describe.
  rewrite Hstrip, (py_split_app_sep _ _ _ Hnd), (py_split_no_sep _ _ Hsdash). cbn [hd].
  rewrite Hsp, Hfm, Hmi, Hma. cbn -[lit].
  eexists. split; [reflexivity|]. cbn -[lit]. split; [reflexivity|].
  split; [reflexivity|].
  repeat (rewrite <- app_assoc || rewrite <- app_comm_cons). reflexivity.
Qed.

(** The tag "1.2.3b1" with the non-numeric second word "foo". *)
Lemma parse_git_describe_post_verbatim_witness :
  exists i, parse_git_describe (lit "1.2.3b1") = Ok i /\ tag i = lit "1.2.3b1" /\
  lit "foo" <> [] /\ ~ In "-"%char (lit "foo") /\
  is_space (List.last (lit "foo") " "%char) = false /\
  exists i', parse_git_describe (lit "1.2.3b1" ++ "-"%char :: lit "foo") = Ok i' /\
             tag i' = lit "1.2.3b1" /\
             tag_version_suffix i' = tag_version_suffix i ++ lit ".post" ++ lit "foo" /\
             tag_version i' = tag_version i ++ lit ".post" ++ lit "foo".
Proof.
  eexists. split; [reflexivity|]. split; [reflexivity|].
  split; [simpl; discriminate|]. split; [simpl; intuition discriminate|].
  split; [reflexivity|].
  apply (parse_git_describe_post_verbatim (lit "1.2.3b1") (lit "foo")).
  - reflexivity.
  - reflexivity.
  - simpl; discriminate.
  - simpl; intuition discriminate.
  - reflexivity.
Defined.

(** Claim C9, counterexample: the input is stripped before it is split, so
    a second word "5 " with a trailing space is not kept verbatim: the
    suffix of "1.2.3-5 " is ".post5", not ".post5 ". *)
Lemma parse_git_describe_post_trailing_space :
  exists i i', parse_git_describe (lit "1.2.3") = Ok i /\
               parse_git_describe (lit "1.2.3" ++ "-"%char :: lit "5 ") = Ok i' /\
               tag_version_suffix i' <> tag_version_suffix i ++ lit ".post" ++ lit "5 ".
Proof.
  do 2 eexists. split; [reflexivity|]. split; [reflexivity|]. simpl. discriminate.
Qed.

(** Claim C5: need_deployment returns True exactly when the configuration
    flag for the kind of artifact (deploy_binary or deploy_noarch) is set
    and the git deploy label is one of [deploy_labels]. *)
Theorem need_deployment_iff (ctx : deploy_config) (prefix : pystr) (binary : bool)
    (deploy_labels : list pystr) :
  need_deployment ctx prefix binary deploy_labels = true <->
  (if binary then deploy_binary ctx else deploy_noarch ctx) = true /\
  exists l, git_deploy_label ctx = Some l /\ In l deploy_labels.
Proof.
  unfold need_deployment, label_in.
  destruct binary, (deploy_binary ctx), (deploy_noarch ctx); simpl;
    try (split; [discriminate | intros [H _]; discriminate H]);
    (destruct (git_deploy_label ctx) as [l|];
     [ destruct (existsb (pystr_eqb l) deploy_labels) eqn:E; simpl;
       [ apply existsb_exists in E as [l' [Hin Heq]];
         unfold pystr_eqb in Heq; apply bool_decide_eq_true in Heq; subst l';
         split; [intros _; split; [reflexivity | exists l; split; [reflexivity | exact Hin]]
                | reflexivity]
       | split; [discriminate|]; intros [_ [l' [Hl Hin]]]; injection Hl as <-;
         assert (existsb (pystr_eqb l) deploy_labels = true)
           by (apply existsb_exists; exists l; split; [exact Hin|];
               unfold pystr_eqb; apply bool_decide_eq_true; reflexivity);
         congruence ]
     | simpl; split; [discriminate | intros [_ [l [Hl _]]]; discriminate Hl] ]).
Qed.

(** Claim C6, counterexample: finalization adds no 'tools' key to a package
    without one, and a package naming an unknown tool is finalized like any
    other, with no error. *)
Lemma finalize_package_tools_not_defaulted :
  finalize_package (PStr (lit "roberto")) ∅ !! "tools"%string = None /\
  finalize_packages (PStr (lit "roberto"))
    [ {[ "tools"%string := PList [lit "no-such-tool"] ]} ] =
  [ <["name"%string := PStr (lit "roberto")]>
      (<["path"%string := PStr (lit ".")]> {[ "tools"%string := PList [lit "no-such-tool"] ]}) ].
Proof. split; reflexivity. Qed.

(** Claim C6 (amended): finalization sets a missing 'path' to "." and a
    missing 'name' to the project name, keeps present values, and leaves
    every other key of the package unchanged. *)
Theorem finalize_package_defaults (project_name : pval) (pkg : package) (k : string) :
  k <> "path"%string -> k <> "name"%string ->
  finalize_package project_name pkg !! "path"%string =
    Some (match pkg !! "path"%string with Some v => v | None => PStr (lit ".") end) /\
  finalize_package project_name pkg !! "name"%string =
    Some (match pkg !! "name"%string with Some v => v | None => project_name end) /\
  finalize_package project_name pkg !! k = pkg !! k.
Proof.
  intros Hkp Hkn. unfold finalize_package.
  destruct (pkg !! "path"%string) as [vp|] eqn:Ep;
    [| rewrite lookup_insert_ne by discriminate];
    destruct (pkg !! "name"%string) as [vn|] eqn:En;
    rewrite ?lookup_insert; repeat case_decide; subst;
    try congruence; rewrite ?lookup_insert; repeat case_decide; subst; try congruence;
    auto.
Qed.

(** A package with a 'tools' key and no 'path' or 'name'. *)
Lemma finalize_package_defaults_witness :
  let pkg : package := {[ "tools"%string := PList [lit "pytest"] ]} in
  "tools"%string <> "path"%string /\ "tools"%string <> "name"%string /\
  (finalize_package (PStr (lit "roberto")) pkg !! "path"%string =
     Some (match pkg !! "path"%string with Some v => v | None => PStr (lit ".") end) /\
   finalize_package (PStr (lit "roberto")) pkg !! "name"%string =
     Some (match pkg !! "name"%string with Some v => v | None => PStr (lit "roberto") end) /\
   finalize_package (PStr (lit "roberto")) pkg !! "tools"%string = pkg !! "tools"%string).
Proof.
  cbv zeta. split; [discriminate|]. split; [discriminate|].
  apply (finalize_package_defaults (PStr (lit "roberto")) _ "tools"%string); discriminate.
Defined.

Lemma hash_packages_app (h : hasher) (ps : list pystr) :
  hash_packages h ps = h ++ concat (map encode_utf8 ps).
Proof.
  revert h. induction ps as [|p ps IH]; intros h; simpl.
  - rewrite app_nil_r. reflexivity.
  - unfold hash_packages in *. simpl. rewrite IH. unfold hasher_update. rewrite app_assoc. reflexivity.
Qed.

Lemma hash_recipe_file_app (h : hasher) (e : dir_entry) :
  hash_recipe_file h e = h ++ entry_bytes e.
Proof.
  unfold hash_recipe_file, entry_bytes, hasher_update.
  destruct (kind e); rewrite ?app_nil_r; reflexivity.
Qed.

Lemma fold_recipe_files (h : hasher) (es : list dir_entry) :
  fold_left hash_recipe_file es h = h ++ flat_map entry_bytes es.
Proof.
  revert h. induction es as [|e es IH]; intros h; simpl.
  - rewrite app_nil_r. reflexivity.
  - rewrite IH, hash_recipe_file_app, app_assoc. reflexivity.
Qed.

Lemma fold_recipe_dirs (fs : filesystem) (h : hasher) (ds : list pystr) :
  fold_left (fun h d => fold_left hash_recipe_file (glob_star fs d) h) ds h =
  h ++ flat_map (recipe_bytes fs) ds.
Proof.
  revert h. induction ds as [|d ds IH]; intros h; simpl.
  - rewrite app_nil_r. reflexivity.
  - rewrite IH, fold_recipe_files. unfold recipe_bytes. rewrite app_assoc. reflexivity.
Qed.

Lemma req_hasher_bytes (fs : filesystem) (conda_packages recipe_dirs pip_packages : list pystr) :
  req_hasher fs conda_packages recipe_dirs pip_packages =
  concat (map encode_utf8 conda_packages) ++ flat_map (recipe_bytes fs) recipe_dirs ++
  concat (map encode_utf8 pip_packages).
Proof.
  unfold req_hasher. rewrite hash_packages_app, fold_recipe_dirs, hash_packages_app.
  simpl. rewrite app_assoc. reflexivity.
Qed.

Lemma length_hex_bytes (l : list Z) : length (flat_map SHA256.hex_byte l) = 2 * length l.
Proof. induction l as [|b l IH]; simpl; [reflexivity|]. rewrite IH. lia. Qed.

Lemma sha256_length (m : list byte) : length (SHA256.sha256 m) = 32.
Proof.
  unfold SHA256.sha256. destruct (fold_left _ _ _). reflexivity.
Qed.

Lemma hexdigest_length (m : list byte) : length (SHA256.hexdigest m) = 64.
Proof. unfold SHA256.hexdigest. rewrite length_hex_bytes, sha256_length. reflexivity. Qed.

Lemma hexdigest_hex (m : list byte) : Forall (fun c => In c SHA256.hex_chars) (SHA256.hexdigest m).
Proof.
  unfold SHA256.hexdigest. apply List.Forall_forall. intros c Hc.
  apply in_flat_map in Hc as [b [_ Hb]].
  assert (Hn : forall n, In (nth n SHA256.hex_chars "0"%char) SHA256.hex_chars).
  { intros n. destruct (Nat.lt_ge_cases n (length SHA256.hex_chars)).
    - apply nth_In. assumption.
    - rewrite nth_overflow by assumption. left. reflexivity. }
  destruct Hb as [<- | [<- | []]]; apply Hn.
Qed.

Lemma concat_map_insert (x : pystr) (l1 l2 : list pystr) :
  concat (map encode_utf8 (l1 ++ x :: l2)) =
  concat (map encode_utf8 l1) ++ encode_utf8 x ++ concat (map encode_utf8 l2).
Proof. rewrite map_app, concat_app. reflexivity. Qed.

Lemma recipe_bytes_insert_silent (fs : filesystem) (d : pystr) (l1 l2 : list dir_entry)
    (e : dir_entry) (d' : pystr) :
  entry_bytes e = [] ->
  recipe_bytes (fs_with fs d (l1 ++ e :: l2)) d' = recipe_bytes (fs_with fs d (l1 ++ l2)) d'.
Proof.
  intros He. unfold recipe_bytes, glob_star, fs_with.
  destruct (pystr_eqb d' d); [|reflexivity].
  rewrite !List.filter_app. simpl.
  destruct (match entry_name e with
            | c :: _ => negb (ascii_eqb c "."%char)
            | [] => true
            end); rewrite !flat_map_app; simpl; rewrite ?He; reflexivity.
Qed.

Lemma compute_req_hash_recipe_bytes (fs fs' : filesystem)
    (conda_packages recipe_dirs pip_packages : list pystr) :
  (forall d, In d recipe_dirs -> recipe_bytes fs d = recipe_bytes fs' d) ->
  compute_req_hash fs conda_packages recipe_dirs pip_packages =
  compute_req_hash fs' conda_packages recipe_dirs pip_packages.
Proof.
  intros H. unfold compute_req_hash, hasher_hexdigest. rewrite !req_hasher_bytes.
  assert (flat_map (recipe_bytes fs) recipe_dirs = flat_map (recipe_bytes fs') recipe_dirs)
    as ->; [|reflexivity].
  induction recipe_dirs as [|d ds IH]; simpl; [reflexivity|].
  rewrite H by (left; reflexivity). rewrite IH by (intros; apply H; right; assumption).
  reflexivity.
Qed.

(** Claim C7 (amended): compute_req_hash is the SHA-256 hex digest of the
    concatenated bytes of the conda packages, of the regular files of the
    recipe directories and of the pip packages; it has 64 lowercase hex
    characters; an added package lengthens the hashed bytes by its own
    length; an added empty package name or empty file leaves the digest
    unchanged. *)
Theorem compute_req_hash_digest (fs : filesystem) (c1 c2 recipe_dirs p1 p2 : list pystr)
    (x : pystr) (d : pystr) (l1 l2 : list dir_entry) (name : pystr) :
  let conda_packages := c1 ++ c2 in
  let pip_packages := p1 ++ p2 in
  compute_req_hash fs conda_packages recipe_dirs pip_packages =
    SHA256.hexdigest (concat (map encode_utf8 conda_packages) ++
                      flat_map (recipe_bytes fs) recipe_dirs ++
                      concat (map encode_utf8 pip_packages)) /\
  length (compute_req_hash fs conda_packages recipe_dirs pip_packages) = 64 /\
  Forall (fun c => In c SHA256.hex_chars) (compute_req_hash fs conda_packages recipe_dirs pip_packages) /\
  length (req_hasher fs (c1 ++ x :: c2) recipe_dirs pip_packages) =
    length (req_hasher fs conda_packages recipe_dirs pip_packages) + length x /\
  length (req_hasher fs conda_packages recipe_dirs (p1 ++ x :: p2)) =
    length (req_hasher fs conda_packages recipe_dirs pip_packages) + length x /\
  compute_req_hash fs (c1 ++ [] :: c2) recipe_dirs pip_packages =
    compute_req_hash fs conda_packages recipe_dirs pip_packages /\
  compute_req_hash fs conda_packages recipe_dirs (p1 ++ [] :: p2) =
    compute_req_hash fs conda_packages recipe_dirs pip_packages /\
  compute_req_hash (fs_with fs d (l1 ++ {| entry_name := name; kind := RegularFile [] |} :: l2))
      conda_packages recipe_dirs pip_packages =
    compute_req_hash (fs_with fs d (l1 ++ l2)) conda_packages recipe_dirs pip_packages.
Proof.
  cbv zeta.
  assert (Henc : forall y, length (encode_utf8 y) = length y)
    by (intros; apply length_map).
  split; [|split; [|split; [|split; [|split; [|split; [|split]]]]]].
  - unfold compute_req_hash, hasher_hexdigest. rewrite req_hasher_bytes. reflexivity.
  - apply hexdigest_length.
  - apply hexdigest_hex.
  - rewrite !req_hasher_bytes, concat_map_insert, !map_app, !concat_app, !length_app, Henc. lia.
  - rewrite !req_hasher_bytes, concat_map_insert, !map_app, !concat_app, !length_app, Henc. lia.
  - unfold compute_req_hash, hasher_hexdigest.
    rewrite !req_hasher_bytes, concat_map_insert, !map_app, !concat_app. reflexivity.
  - unfold compute_req_hash, hasher_hexdigest.
    rewrite !req_hasher_bytes, concat_map_insert, !map_app, !concat_app. reflexivity.
  - apply compute_req_hash_recipe_bytes. intros d' _.
    apply recipe_bytes_insert_silent. reflexivity.
Qed.

(** Claim C10: adding an entry that is not a regular file (a subdirectory or
    anything else) to a recipe directory leaves the digest unchanged; more
    generally the digest depends on the recipe directories only through the
    bytes of their regular files. *)
Theorem compute_req_hash_regular_files_only (fs fs' : filesystem)
    (conda_packages recipe_dirs pip_packages : list pystr) (d : pystr)
    (l1 l2 : list dir_entry) (e : dir_entry) :
  (forall contents, kind e <> RegularFile contents) ->
  compute_req_hash (fs_with fs d (l1 ++ e :: l2)) conda_packages recipe_dirs pip_packages =
    compute_req_hash (fs_with fs d (l1 ++ l2)) conda_packages recipe_dirs pip_packages /\
  ((forall d', In d' recipe_dirs -> recipe_bytes fs d' = recipe_bytes fs' d') ->
   compute_req_hash fs conda_packages recipe_dirs pip_packages =
   compute_req_hash fs' conda_packages recipe_dirs pip_packages).
Proof.
  intros Hk. split.
  - apply compute_req_hash_recipe_bytes. intros d' _.
    apply recipe_bytes_insert_silent. unfold entry_bytes.
    destruct (kind e) as [contents| |]; [exfalso; exact (Hk contents eq_refl)| |]; reflexivity.
  - apply compute_req_hash_recipe_bytes.
Qed.

(** A subdirectory "sub" created in the recipe directory of [fs_recipe]. *)
Lemma compute_req_hash_regular_files_only_witness :
  (forall contents, kind {| entry_name := lit "sub"; kind := Directory |} <> RegularFile contents) /\
  (compute_req_hash
     (fs_with fs_recipe (lit "recipe")
        ([{| entry_name := lit "foo"; kind := RegularFile (encode_utf8 (lit "bar")) |}] ++
         {| entry_name := lit "sub"; kind := Directory |} :: []))
     [lit "conda-build"] [lit "recipe"] [lit "codecov"] =
   compute_req_hash
     (fs_with fs_recipe (lit "recipe")
        ([{| entry_name := lit "foo"; kind := RegularFile (encode_utf8 (lit "bar")) |}] ++ []))
     [lit "conda-build"] [lit "recipe"] [lit "codecov"] /\
   ((forall d', In d' [lit "recipe"] -> recipe_bytes fs_recipe d' = recipe_bytes fs_recipe d') ->
    compute_req_hash fs_recipe [lit "conda-build"] [lit "recipe"] [lit "codecov"] =
    compute_req_hash fs_recipe [lit "conda-build"] [lit "recipe"] [lit "codecov"])).
Proof.
  split; [intros contents; simpl; discriminate|].
  apply (compute_req_hash_regular_files_only fs_recipe fs_recipe
           [lit "conda-build"] [lit "recipe"] [lit "codecov"] (lit "recipe")
           [{| entry_name := lit "foo"; kind := RegularFile (encode_utf8 (lit "bar")) |}] []
           {| entry_name := lit "sub"; kind := Directory |}).
  intros contents; simpl; discriminate.
Defined.


(** Claim C7, counterexample: adding an empty pip package name, or an empty
    file to a recipe directory, leaves the digest unchanged. *)
Lemma compute_req_hash_empty_additions :
  compute_req_hash fs_recipe [lit "conda-build"] [lit "recipe"] [lit "codecov"] =
  compute_req_hash fs_recipe [lit "conda-build"] [lit "recipe"] [lit "codecov"; []] /\
  compute_req_hash fs_recipe [lit "conda-build"] [lit "recipe"] [lit "codecov"] =
  compute_req_hash
    (fs_with fs_recipe (lit "recipe")
       [{| entry_name := lit "foo"; kind := RegularFile (encode_utf8 (lit "bar")) |};
        {| entry_name := lit "egg"; kind := RegularFile [] |}])
    [lit "conda-build"] [lit "recipe"] [lit "codecov"].
Proof. split; vm_compute; reflexivity. Qed.

Section SchedulerFacts.

Context {T : Type} `{EqDecision T}.
Variable prereqs : T -> list T.

Lemma prereqs_first_snoc (l : list T) (t : T) :
  prereqs_first prereqs l ->
  (forall p, p ∈ prereqs t -> p ∈ l) ->
  prereqs_first prereqs (l ++ [t]).
Proof.
  intros Hl Ht l1 x l2 E p Hp.
  destruct l2 as [|y l2'] using rev_ind.
  - apply app_inj_tail in E as [-> ->]. auto.
  - rewrite app_comm_cons, app_assoc in E.
    apply app_inj_tail in E as [E _]. exact (Hl l1 x l2' E p Hp).
Qed.

Lemma run_inv_init : run_inv prereqs init_state.
Proof.
  split; [|split]; simpl.
  - tauto.
  - constructor.
  - intros l1 x l2 E. destruct l1; discriminate.
Qed.

Lemma run_inv_mono (st st' : run_state T) l x :
  run_inv prereqs st -> run_inv prereqs st' -> order st' = order st ++ l ->
  In x (completed st) -> In x (completed st').
Proof.
  intros [H1 _] [H1' _] E Hx. apply H1'. apply H1 in Hx. rewrite E. apply in_or_app. auto.
Qed.

Lemma fold_run_task_post (f : nat) (running : list T) :
  (forall t st st', run_inv prereqs st -> run_task prereqs f running t st = Some st' ->
     run_task_post prereqs running t st st') ->
  forall l st st', run_inv prereqs st -> fold_opt (run_task prereqs f running) l st = Some st' ->
  run_inv prereqs st' /\ (forall x, In x l -> In x (completed st')) /\
  exists l', order st' = order st ++ l' /\ Forall (fun x => ~ In x running) l'.
Proof.
  intros Hstep l. induction l as [|y l IH]; intros st st' Hinv E; simpl in E.
  - injection E as <-. split; [exact Hinv|split; [intros x []|]].
    exists []. rewrite app_nil_r. auto.
  - destruct (run_task prereqs f running y st) as [s1|] eqn:E1; [|discriminate].
    destruct (Hstep _ _ _ Hinv E1) as (Hinv1 & Hy & l1 & O1 & F1).
    destruct (IH _ _ Hinv1 E) as (Hinv' & Hall & l2 & O2 & F2).
    split; [exact Hinv'|split].
    + intros x [<-|Hx]; [|auto]. exact (run_inv_mono s1 st' l2 y Hinv1 Hinv' O2 Hy).
    + exists (l1 ++ l2). rewrite O2, O1, app_assoc. split; [reflexivity|].
      apply Forall_app. auto.
Qed.

Lemma run_task_spec (fuel : nat) :
  forall running t st st', run_inv prereqs st -> run_task prereqs fuel running t st = Some st' ->
  run_task_post prereqs running t st st'.
Proof.
  induction fuel as [|f IH]; intros running t st st' Hinv E; simpl in E; [discriminate|].
  destruct (decide (t ∈ completed st)) as [Hc|Hc].
  - injection E as <-. split; [exact Hinv|split].
    + apply list_elem_of_In. exact Hc.
    + exists []. rewrite app_nil_r. auto.
  - destruct (decide (t ∈ running)) as [Hr|Hr]; [discriminate|].
    destruct (fold_opt (run_task prereqs f (t :: running)) (prereqs t) st) as [s1|] eqn:E1;
      [|discriminate].
    injection E as <-.
    destruct (fold_run_task_post f (t :: running) (IH (t :: running)) _ _ _ Hinv E1)
      as ((Hc1 & Hn1 & Hp1) & Hall & l1 & O1 & F1).
    rewrite list_elem_of_In in Hc, Hr.
    assert (Ht1 : ~ In t (order s1)).
    { rewrite O1. intros Hin. apply in_app_or in Hin as [Hin|Hin].
      - apply Hc, (proj1 Hinv), Hin.
      - rewrite List.Forall_forall in F1. apply (F1 t Hin). left. reflexivity. }
    split; [split; [|split]|split]; simpl.
    + intros x. specialize (Hc1 x). rewrite in_app_iff. simpl. tauto.
    + apply NoDup_app. split; [exact Hn1|split].
      * intros x Hx Hx'. apply list_elem_of_In in Hx. apply list_elem_of_In in Hx'.
        destruct Hx' as [<-|[]]. exact (Ht1 Hx).
      * apply NoDup_singleton.
    + apply prereqs_first_snoc; [exact Hp1|].
      intros p Hp. apply list_elem_of_In, Hc1, Hall, list_elem_of_In, Hp.
    + left. reflexivity.
    + exists (l1 ++ [t]). rewrite O1, app_assoc. split; [reflexivity|].
      apply Forall_app. split.
      * eapply List.Forall_impl; [|exact F1]. intros x Hx Hin. apply Hx. right. exact Hin.
      * constructor; [exact Hr|constructor].
Qed.

Lemma fold_run_task_spec (f : nat) (running : list T) l st st' :
  run_inv prereqs st -> fold_opt (run_task prereqs f running) l st = Some st' ->
  run_inv prereqs st' /\ (forall x, In x l -> In x (completed st')) /\
  exists l', order st' = order st ++ l' /\ Forall (fun x => ~ In x running) l'.
Proof. apply fold_run_task_post, run_task_spec. Qed.

Lemma run_task_completed (f : nat) running t st :
  In t (completed st) -> run_task prereqs (S f) running t st = Some st.
Proof.
  intros Ht. simpl. rewrite decide_True; [reflexivity|]. apply list_elem_of_In, Ht.
Qed.

(** A rank that strictly decreases along every prerequisite edge. *)
Variable rank : T -> nat.
Hypothesis rank_pre : forall t p, In p (prereqs t) -> rank p < rank t.

Lemma run_task_some (fuel : nat) :
  forall running t st, run_inv prereqs st -> rank t < fuel ->
  (forall x, In x running -> rank t < rank x) ->
  exists st', run_task prereqs fuel running t st = Some st'.
Proof.
  induction fuel as [|f IH]; intros running t st Hinv Hf Hr; [lia|]. simpl.
  destruct (decide (t ∈ completed st)); [eauto|].
  rewrite decide_False.
  2:{ rewrite list_elem_of_In. intros Hin. specialize (Hr t Hin). lia. }
  assert (Hfold : forall l st0, run_inv prereqs st0 -> (forall p, In p l -> In p (prereqs t)) ->
            exists st1, fold_opt (run_task prereqs f (t :: running)) l st0 = Some st1).
  { induction l as [|p l IHl]; intros st0 Hinv0 Hl; simpl; [eauto|].
    assert (Hp := rank_pre t p (Hl p (or_introl eq_refl))).
    destruct (IH (t :: running) p st0 Hinv0) as [s1 E1]; [lia| |].
    - intros x [<-|Hx]; [lia|]. specialize (Hr x Hx). lia.
    - rewrite E1. destruct (run_task_spec f _ _ _ _ Hinv0 E1) as [Hinv1 _].
      apply IHl; [exact Hinv1|]. intros q Hq. apply Hl. right. exact Hq. }
  destruct (Hfold (prereqs t) st Hinv (fun p Hp => Hp)) as [s1 ->]. eauto.
Qed.

Lemma run_tasks_some (fuel : nat) roots :
  (forall t, rank t < fuel) ->
  exists st, run_tasks prereqs fuel roots = Some st.
Proof.
  intros Hf. unfold run_tasks.
  assert (Hgen : forall l st0, run_inv prereqs st0 ->
            exists st1, fold_opt (run_task prereqs fuel []) l st0 = Some st1).
  { induction l as [|p l IHl]; intros st0 Hinv0; simpl; [eauto|].
    destruct (run_task_some fuel [] p st0 Hinv0 (Hf p)) as [s1 E1]; [intros x []|].
    rewrite E1. destruct (run_task_spec fuel _ _ _ _ Hinv0 E1) as [Hinv1 _]. auto. }
  apply Hgen, run_inv_init.
Qed.

End SchedulerFacts.

Lemma depth_pre t p : In p (pre t) -> depth p < depth t.
Proof. destruct t; simpl; intros Hp; repeat destruct Hp as [<-|Hp]; simpl; lia. Qed.

(** Claim C1: in every run of the task graph of tasks.py, with enough fuel
    the run succeeds; each task body runs at most once (the execution
    order has no duplicates); every prerequisite of a task ran before it;
    every requested task is completed; re-requesting a completed task
    leaves the state unchanged. *)
Lemma run_tasks_once_per_run (roots : list task) (fuel : nat) :
  9 <= fuel ->
  exists st, run_tasks pre fuel roots = Some st /\
    (forall t, In t (completed st) <-> In t (order st)) /\
    NoDup (order st) /\
    prereqs_first pre (order st) /\
    (forall t, In t roots -> In t (completed st)) /\
    (forall t running, In t (completed st) -> run_task pre fuel running t st = Some st).
Proof.
  intros Hf.
  destruct (run_tasks_some pre depth depth_pre fuel roots) as [st E].
  { intros t. destruct t; simpl; lia. }
  exists st. split; [exact E|].
  unfold run_tasks in E.
  destruct (fold_run_task_spec pre fuel [] roots _ _ (run_inv_init pre) E)
    as ((H1 & H2 & H3) & Hall & _).
  split; [exact H1|split; [exact H2|split; [exact H3|split; [exact Hall|]]]].
  intros t running Ht. destruct fuel as [|f]; [lia|]. apply run_task_completed, Ht.
Qed.

(** The default task, robot and build_packages requested in one run. *)
Lemma run_tasks_once_per_run_witness :
  9 <= 9 /\
  exists st, run_tasks pre 9 [quality; robot; build_packages] = Some st /\
    (forall t, In t (completed st) <-> In t (order st)) /\
    NoDup (order st) /\
    prereqs_first pre (order st) /\
    (forall t, In t [quality; robot; build_packages] -> In t (completed st)) /\
    (forall t running, In t (completed st) -> run_task pre 9 running t st = Some st).
Proof. split; [lia | apply (run_tasks_once_per_run [quality; robot; build_packages] 9); lia]. Defined.

(* ===================================================================== *)
(** ** Properties of the environment, tool and installation code *)
(* ===================================================================== *)

Lemma fmap_is_map {A B} (f : A -> B) (l : list A) : f <$> l = map f l.
Proof. induction l as [|x l IH]; simpl; [reflexivity|]. rewrite <- IH. reflexivity. Qed.

Lemma fold_insert_lookup (l : list (pystr * pystr)) (e : environ) k :
  NoDup (map fst l) ->
  fold_left (fun e kv => <[kv.1 := kv.2]> e) l e !! k =
  match list_to_map (M := environ) l !! k with Some v => Some v | None => e !! k end.
Proof.
  revert e. induction l as [|[k' v'] l IH]; intros e Hnd; simpl; [rewrite lookup_empty; reflexivity|].
  inversion Hnd as [|? ? Hn Hnd']; subst. rewrite IH by exact Hnd'.
  simpl.
  destruct (decide (k = k')) as [->|Hne].
  - rewrite lookup_insert_eq.
    assert (list_to_map (M := environ) l !! k' = None) as -> by
      (apply not_elem_of_list_to_map_1; rewrite fmap_is_map; exact Hn).
    rewrite lookup_insert_eq. reflexivity.
  - rewrite !lookup_insert_ne by congruence. reflexivity.
Qed.

Lemma fold_delete_lookup (ks : list pystr) (e : environ) k :
  fold_left (fun e k => delete k e) ks e !! k = if decide (k ∈ ks) then None else e !! k.
Proof.
  revert e. induction ks as [|k' ks IH]; intros e; cbn [fold_left].
  - case_decide as H; [apply not_elem_of_nil in H; contradiction|reflexivity].
  - rewrite IH. case_decide as H1; case_decide as H2; try reflexivity.
    + exfalso. apply H2. apply elem_of_cons. right. exact H1.
    + apply elem_of_cons in H2 as [->|H2]; [|contradiction].
      apply lookup_delete_eq.
    + apply lookup_delete_ne. intros ->. apply H2. apply elem_of_cons. left. reflexivity.
Qed.

Lemma NoDup_map_fst_map_to_list (m : environ) : NoDup (map fst (map_to_list m)).
Proof. rewrite <- fmap_is_map. apply NoDup_fst_map_to_list. Qed.

(** after [update_env_command] the environment is exactly the dumped one: every key of the new environment with its value, and no other key. *)
Lemma update_env_newenv (env newenv : environ) : update_env env newenv = newenv.
Proof.
  apply map_eq. intros k. unfold update_env.
  rewrite fold_delete_lookup, fold_insert_lookup by apply NoDup_map_fst_map_to_list.
  rewrite list_to_map_to_list.
  case_decide as Hk; rewrite list_elem_of_In, filter_In in Hk.
  - destruct Hk as [_ Hk]. destruct (newenv !! k); [discriminate|reflexivity].
  - destruct (newenv !! k) as [v|] eqn:E; [reflexivity|].
    destruct (env !! k) as [v|] eqn:E'; [|reflexivity].
    exfalso. apply Hk. split; [|reflexivity].
    apply in_map_iff. exists (k, v). split; [reflexivity|].
    apply list_elem_of_In, elem_of_map_to_list.
    rewrite fold_insert_lookup by apply NoDup_map_fst_map_to_list.
    rewrite list_to_map_to_list, E, E'. reflexivity.
Qed.

Lemma fold_delete_if_lookup (p : pystr -> bool) (ks : list pystr) (e : environ) k :
  fold_left (fun e name => if p name then delete name e else e) ks e !! k =
  if decide (k ∈ ks /\ p k = true) then None else e !! k.
Proof.
  revert e. induction ks as [|k' ks IH]; intros e; cbn [fold_left].
  - case_decide as H; [destruct H as [H _]; apply not_elem_of_nil in H; contradiction|reflexivity].
  - rewrite IH. case_decide as H1; case_decide as H2; try reflexivity.
    + exfalso. apply H2. destruct H1 as [H1 Hp]. split; [apply elem_of_cons; right; exact H1|exact Hp].
    + destruct H2 as [H2 Hp]. apply elem_of_cons in H2 as [->|H2]; [|exfalso; tauto].
      rewrite Hp. apply lookup_delete_eq.
    + destruct (p k') eqn:Hp'; [|reflexivity].
      apply lookup_delete_ne. intros ->. apply H2. split; [apply elem_of_cons; left; reflexivity|exact Hp'].
Qed.

(** [clean_env] removes HOST and every variable whose name starts with CONDA_, and keeps every other variable with its value. *)
Theorem clean_env_lookup (env : environ) (k : pystr) :
  clean_env env !! k =
  if bool_decide (k = lit "HOST") || starts_with (lit "CONDA_") k then None else env !! k.
Proof.
  unfold clean_env.
  set (env1 := match env !! lit "HOST" with Some _ => delete (lit "HOST") env | None => env end).
  assert (H1 : env1 !! k = if bool_decide (k = lit "HOST") then None else env !! k).
  { subst env1. case_bool_decide as Hk.
    - subst k. destruct (env !! lit "HOST") eqn:E; [apply lookup_delete_eq|exact E].
    - destruct (env !! lit "HOST"); [apply lookup_delete_ne; congruence|reflexivity]. }
  rewrite fold_delete_if_lookup. destruct (decide (_ ∧ _)) as [H2|H2].
  - destruct H2 as [_ Hp]. cbv beta in Hp. rewrite Hp, orb_true_r. reflexivity.
  - destruct (starts_with (lit "CONDA_") k) eqn:Es.
    + rewrite orb_true_r.
      destruct (env1 !! k) as [v|] eqn:E1; [|reflexivity].
      exfalso. apply H2. split; [|reflexivity].
      apply list_elem_of_In, in_map_iff. exists (k, v).
      split; [reflexivity|].
      apply list_elem_of_In, elem_of_map_to_list, E1.
    + rewrite orb_false_r. exact H1.
Qed.

(** when [conda_deactivate] returns, it only cleaned the environment if no conda environment was active; a single iteration leaves the environment of one deactivation; with iteration, no HOST and no CONDA_ variable is left. *)
Theorem conda_deactivate_return (deactivate_shell : pystr -> environ -> environ)
    (fuel : nat) (iterate : bool) (env r : environ) :
  conda_deactivate deactivate_shell fuel iterate env = Some (Return r) ->
  (env !! lit "CONDA_PREFIX" = None -> r = clean_env env) /\
  (iterate = false -> env !! lit "CONDA_PREFIX" <> None ->
     exists conda_exe, env !! lit "CONDA_EXE" = Some conda_exe /\
                       r = deactivate_shell conda_exe env) /\
  (iterate = true ->
     r !! lit "HOST" = None /\ forall k, starts_with (lit "CONDA_") k = true -> r !! k = None).
Proof.
  assert (Hclean : forall e, clean_env e !! lit "HOST" = None /\
            forall k, starts_with (lit "CONDA_") k = true -> clean_env e !! k = None).
  { intros e. split; [rewrite clean_env_lookup; reflexivity|].
    intros k Hk. rewrite clean_env_lookup, Hk, orb_true_r. reflexivity. }
  unfold conda_deactivate. intros H.
  destruct (env !! lit "CONDA_PREFIX") as [p|] eqn:Ep.
  - destruct (env !! lit "CONDA_EXE") as [exe|] eqn:Ee; [|discriminate].
    split; [discriminate|]. destruct iterate.
    + destruct (deactivate_loop _ _ _ _) as [env2|]; [|discriminate].
      injection H as <-. split; [discriminate|]. intros _. apply Hclean.
    + injection H as <-. split; [|discriminate]. intros _ _. exists exe.
      split; [reflexivity|]. apply update_env_newenv.
  - injection H as <-. split; [reflexivity|]. split; [congruence|]. intros _. apply Hclean.
Qed.


(** the message of [check_env_var] only depends on whether the variable is unset, empty or non-empty, never on its value, and is one of three fixed messages. *)
Theorem check_env_var_value_hidden (env env' : environ) (name : pystr) :
  (env !! name = None <-> env' !! name = None) ->
  (env !! name = Some [] <-> env' !! name = Some []) ->
  check_env_var env name = check_env_var env' name /\
  In (check_env_var env name)
    [lit "The environment variable " ++ name ++ lit " is not set.";
     lit "The environment variable " ++ name ++ lit " is empty.";
     lit "The environment variable " ++ name ++ lit " is not empty."].
Proof.
  intros Hn He. unfold check_env_var, pystr_eqb.
  destruct (env !! name) as [v|] eqn:E; destruct (env' !! name) as [v'|] eqn:E'.
  - case_bool_decide as Hv; case_bool_decide as Hv'; subst; simpl;
      try (split; [reflexivity|tauto]).
    + exfalso. apply Hv'. pose proof (proj1 He eq_refl). congruence.
    + exfalso. apply Hv. pose proof (proj2 He eq_refl). congruence.
  - exfalso. pose proof (proj2 Hn eq_refl). discriminate.
  - exfalso. pose proof (proj1 Hn eq_refl). discriminate.
  - simpl. split; [reflexivity|tauto].
Qed.

Lemma iter_tools_sound (task : pystr) (pkg : package) (names : list pystr) :
  forall reg y, In y (iter_tools reg task pkg names).1.2 ->
  y.2 = pkg /\ (exists n, In n names /\ y.1 !! "name"%string = Some (TStr n)) /\
  (task = lit "__all__" \/ y.1 !! "task"%string = Some (TStr task)).
Proof.
  induction names as [|n names IH]; intros reg y Hy; simpl in Hy; [destruct Hy|].
  destruct (reg !! n) as [t0|]; [|destruct Hy].
  destruct (<["name"%string := TStr n]> t0 !! "task"%string) as [tt|] eqn:Ett; [|destruct Hy].
  destruct (iter_tools _ task pkg names) as [[r ys] e] eqn:E.
  pose proof (IH (<[n := <["name"%string := TStr n]> t0]> reg)) as IH'. rewrite E in IH'.
  simpl in IH'.
  assert (Hrest : In y ys -> y.2 = pkg /\ (exists n', In n' (n :: names) /\
            y.1 !! "name"%string = Some (TStr n')) /\
            (task = lit "__all__" \/ y.1 !! "task"%string = Some (TStr task))).
  { intros Hin. destruct (IH' y Hin) as (H1 & (n' & Hn' & H2) & H3).
    split; [exact H1|split; [exists n'; split; [right; exact Hn'|exact H2]|exact H3]]. }
  destruct (_ || bool_decide (tt = TStr task)) eqn:Em;
    simpl in Hy; [|exact (Hrest Hy)].
  destruct Hy as [<-|Hy]; [|exact (Hrest Hy)].
  simpl. split; [reflexivity|split].
  - exists n. split; [left; reflexivity|]. apply lookup_insert_eq.
  - apply orb_true_iff in Em as [Em|Em].
    + left. unfold pystr_eqb in Em. apply bool_decide_eq_true in Em. exact Em.
    + right. apply bool_decide_eq_true in Em. subst tt. exact Ett.
Qed.

Lemma task_view_insert_name (reg : registry) (n : pystr) (t0 : tool) (m : pystr) :
  reg !! n = Some t0 ->
  task_view (<[n := <["name"%string := TStr n]> t0]> reg) m = task_view reg m.
Proof.
  intros Hn. unfold task_view. destruct (decide (m = n)) as [->|Hne].
  - rewrite lookup_insert_eq, Hn. simpl. rewrite lookup_insert_ne by discriminate. reflexivity.
  - rewrite lookup_insert_ne by congruence. reflexivity.
Qed.

Lemma iter_tools_exact (task : pystr) (pkg : package) (names : list pystr) :
  forall reg, Forall (fun n => exists tt, task_view reg n = Some (Some tt)) names ->
  (iter_tools reg task pkg names).2 = None /\
  (forall m, task_view (iter_tools reg task pkg names).1.1 m = task_view reg m) /\
  map (fun y => (y.1 !! "name"%string, y.2)) (iter_tools reg task pkg names).1.2 =
    map (fun n => (Some (TStr n), pkg)) (List.filter (tool_matches reg task) names).
Proof.
  induction names as [|n names IH]; intros reg Hwf; cbn [iter_tools]; [auto|].
  inversion Hwf as [|? ? [tt Htt] Hwf']; subst.
  unfold task_view in Htt. destruct (reg !! n) as [t0|] eqn:Ht0; [|discriminate]. simpl in Htt.
  injection Htt as Htt.
  assert (Ett : <["name"%string := TStr n]> t0 !! "task"%string = Some tt)
    by (rewrite lookup_insert_ne by discriminate; exact Htt).
  rewrite Ett.
  set (reg1 := <[n := <["name"%string := TStr n]> t0]> reg).
  assert (Hv : forall m, task_view reg1 m = task_view reg m)
    by (intros m; apply task_view_insert_name, Ht0).
  assert (Hwf1 : Forall (fun n => exists tt, task_view reg1 n = Some (Some tt)) names).
  { eapply List.Forall_impl; [|exact Hwf']. intros m [tm Hm]. exists tm. rewrite Hv. exact Hm. }
  destruct (IH reg1 Hwf1) as (He & Hr & Hys).
  destruct (iter_tools reg1 task pkg names) as [[r ys] e] eqn:E. simpl in He, Hr, Hys.
  assert (Hf : List.filter (tool_matches reg1 task) names = List.filter (tool_matches reg task) names).
  { apply filter_ext. intros m. unfold tool_matches. rewrite Hv. reflexivity. }
  assert (Hm : tool_matches reg task n =
               pystr_eqb task (lit "__all__") || bool_decide (tt = TStr task)).
  { unfold tool_matches, task_view. rewrite Ht0. simpl. rewrite Htt.
    f_equal. apply bool_decide_ext. split; [congruence|intros ->; reflexivity]. }
  cbn [List.filter]. rewrite <- Hm.
  destruct (tool_matches reg task n); cbn [fst snd map];
    (split; [exact He|split; [intros m; rewrite Hr; apply Hv|]]).
  - rewrite lookup_insert_eq. f_equal. rewrite Hys, Hf. reflexivity.
  - rewrite Hys, Hf. reflexivity.
Qed.

Lemma iter_tools_task_view (task : pystr) (pkg : package) (names : list pystr) :
  forall reg m, task_view (iter_tools reg task pkg names).1.1 m = task_view reg m.
Proof.
  induction names as [|n names IH]; intros reg m; cbn [iter_tools]; [reflexivity|].
  destruct (reg !! n) as [t0|] eqn:Ht0; [|reflexivity].
  assert (Hv : forall m, task_view (<[n := <["name"%string := TStr n]> t0]> reg) m = task_view reg m)
    by (intros m'; apply task_view_insert_name, Ht0).
  destruct (_ !! "task"%string) as [tt|]; [|apply Hv].
  pose proof (IH (<[n := <["name"%string := TStr n]> t0]> reg) m) as IHm.
  destruct (iter_tools _ task pkg names) as [[r ys] e].
  destruct (_ || _); simpl in *; rewrite IHm; apply Hv.
Qed.


Lemma iter_tools_absent (task : pystr) (pkg : package) (names : list pystr) :
  forall reg m, reg !! m = None -> (iter_tools reg task pkg names).1.1 !! m = None.
Proof.
  induction names as [|n names IH]; intros reg m Hm; cbn [iter_tools]; [exact Hm|].
  destruct (reg !! n) as [t0|] eqn:Ht0; [|exact Hm].
  assert (Hm1 : <[n := <["name"%string := TStr n]> t0]> reg !! m = None)
    by (rewrite lookup_insert_ne by congruence; exact Hm).
  destruct (_ !! "task"%string) as [tt|]; [|exact Hm1].
  pose proof (IH _ m Hm1) as IHm.
  destruct (iter_tools _ task pkg names) as [[r ys] e].
  destruct (_ || _); exact IHm.
Qed.

Lemma iter_tools_app_err (task : pystr) (pkg : package) (l1 l2 : list pystr) :
  forall reg, Forall (fun n => exists tt, task_view reg n = Some (Some tt)) l1 ->
  exists reg1, (forall m, reg !! m = None -> reg1 !! m = None) /\
    (iter_tools reg task pkg (l1 ++ l2)).2 = (iter_tools reg1 task pkg l2).2.
Proof.
  induction l1 as [|n l1 IH]; intros reg Hwf; [exists reg; split; [auto|reflexivity]|].
  inversion Hwf as [|? ? [tt Htt] Hwf']; subst.
  unfold task_view in Htt. destruct (reg !! n) as [t0|] eqn:Ht0; [|discriminate]. simpl in Htt.
  injection Htt as Htt.
  assert (Ett : <["name"%string := TStr n]> t0 !! "task"%string = Some tt)
    by (rewrite lookup_insert_ne by discriminate; exact Htt).
  cbn [app iter_tools]. rewrite Ht0, Ett.
  set (reg1 := <[n := <["name"%string := TStr n]> t0]> reg).
  assert (Hwf1 : Forall (fun n => exists tt, task_view reg1 n = Some (Some tt)) l1).
  { eapply List.Forall_impl; [|exact Hwf']. intros m [tm Hm]. exists tm.
    unfold reg1. rewrite task_view_insert_name by exact Ht0. exact Hm. }
  destruct (IH reg1 Hwf1) as (r & Hr & He).
  exists r. split.
  - intros m Hm. apply Hr. subst reg1. rewrite lookup_insert_ne by congruence. exact Hm.
  - destruct (iter_tools reg1 task pkg (l1 ++ l2)) as [[r' ys] e]. simpl in He.
    destruct (_ || _); exact He.
Qed.

Lemma iter_packages_tools_app_err (task : pystr) (pkgs1 rest : list package) :
  forall reg, tools_wf reg pkgs1 ->
  exists reg1, (forall m, reg !! m = None -> reg1 !! m = None) /\
    (forall m, task_view reg1 m = task_view reg m) /\
    (iter_packages_tools reg task (pkgs1 ++ rest)).2 = (iter_packages_tools reg1 task rest).2.
Proof.
  induction pkgs1 as [|pkg pkgs1 IH]; intros reg Hwf;
    [exists reg; split; [auto|split; reflexivity]|].
  inversion Hwf as [|? ? [[l Hl] Hn] Hwf']; subst.
  cbn [app iter_packages_tools]. rewrite Hl. cbn [pval_iter].
  assert (Hpl : package_tool_names pkg = l) by (unfold package_tool_names; rewrite Hl; reflexivity).
  rewrite Hpl in Hn.
  pose proof (iter_tools_exact task pkg l reg Hn) as (He & Hv & _).
  pose proof (iter_tools_absent task pkg l reg) as Ha.
  destruct (iter_tools reg task pkg l) as [[r1 ys1] e1]. simpl in He, Hv, Ha. subst e1.
  assert (Hwf1 : tools_wf r1 pkgs1).
  { eapply List.Forall_impl; [|exact Hwf']. intros p [Hp1 Hp2]. split; [exact Hp1|].
    eapply List.Forall_impl; [|exact Hp2]. intros m [tm Hm]. exists tm. rewrite Hv. exact Hm. }
  destruct (IH r1 Hwf1) as (r2 & Hr2 & Hv2 & He2).
  exists r2. split; [intros m Hm; apply Hr2, Ha, Hm|]. split; [intros m; rewrite Hv2; apply Hv|].
  destruct (iter_packages_tools r1 task (pkgs1 ++ rest)) as [[r' ys] e]. simpl in He2 |- *.
  exact He2.
Qed.

(** a tool name missing from ctx.tools makes [iter_packages_tools] raise KeyError with that name, once the packages and tool names before it are well formed. *)
Theorem iter_packages_tools_unknown_tool (reg : registry) (task : pystr)
    (pkgs1 pkgs2 : list package) (pkg : package) (l1 l2 : list pystr) (n : pystr) :
  tools_wf reg pkgs1 ->
  pkg !! "tools"%string = Some (PList (l1 ++ n :: l2)) ->
  Forall (fun m => exists tt, task_view reg m = Some (Some tt)) l1 ->
  reg !! n = None ->
  (iter_packages_tools reg task (pkgs1 ++ pkg :: pkgs2)).2 = Some (KeyError n).
Proof.
  intros Hwf Hl Hl1 Hn.
  destruct (iter_packages_tools_app_err task pkgs1 (pkg :: pkgs2) reg Hwf) as (r1 & Hr1 & Hv1 & ->).
  cbn [iter_packages_tools]. rewrite Hl. cbn [pval_iter].
  assert (Hl1' : Forall (fun m => exists tt, task_view r1 m = Some (Some tt)) l1).
  { eapply List.Forall_impl; [|exact Hl1]. intros m [tm Hm]. exists tm. rewrite Hv1. exact Hm. }
  destruct (iter_tools_app_err task pkg l1 (n :: l2) r1 Hl1') as (r2 & Hr2 & He).
  destruct (iter_tools r1 task pkg (l1 ++ n :: l2)) as [[r ys] e]. simpl in He. subst e.
  cbn [iter_tools]. rewrite (Hr2 n (Hr1 n Hn)). reflexivity.
Qed.

(** a package without a tools entry makes [iter_packages_tools] raise AttributeError, also after [_finalize] filled its path and name. *)
Theorem iter_packages_tools_missing_tools (reg : registry) (task : pystr) (pn : pval)
    (pkgs1 pkgs2 : list package) (pkg : package) :
  tools_wf reg pkgs1 ->
  pkg !! "tools"%string = None ->
  (iter_packages_tools reg task (pkgs1 ++ finalize_package pn pkg :: pkgs2)).2 =
    Some (AttributeError "tools").
Proof.
  intros Hwf Hl.
  destruct (iter_packages_tools_app_err task pkgs1 (finalize_package pn pkg :: pkgs2) reg Hwf)
    as (r1 & _ & _ & ->).
  cbn [iter_packages_tools].
  assert (Hf : finalize_package pn pkg !! "tools"%string = None).
  { unfold finalize_package.
    destruct (pkg !! "path"%string); destruct (_ !! "name"%string);
      rewrite ?lookup_insert_ne by discriminate; try exact Hl;
      rewrite ?lookup_insert_ne by discriminate; exact Hl. }
  rewrite Hf. reflexivity.
Qed.

Lemma field_insert_name (reg : registry) (n : pystr) (t0 : tool) (m : pystr) (k : string) :
  k <> "name"%string -> reg !! n = Some t0 ->
  field (<[n := <["name"%string := TStr n]> t0]> reg) m k = field reg m k.
Proof.
  intros Hk Hn. unfold field. destruct (decide (m = n)) as [->|Hne].
  - rewrite lookup_insert_eq, Hn. rewrite lookup_insert_ne by congruence. reflexivity.
  - rewrite lookup_insert_ne by congruence. reflexivity.
Qed.

Lemma iter_tools_sound_fields (task : pystr) (pkg : package) (names : list pystr) :
  forall reg,
  (forall m k, k <> "name"%string -> field (iter_tools reg task pkg names).1.1 m k = field reg m k) /\
  (forall y, In y (iter_tools reg task pkg names).1.2 ->
   y.2 = pkg /\ exists n, In n names /\ y.1 !! "name"%string = Some (TStr n) /\
   (forall k, k <> "name"%string -> y.1 !! k = field reg n k) /\
   (task = lit "__all__" \/ field reg n "task" = Some (TStr task))).
Proof.
  induction names as [|n names IH]; intros reg; cbn [iter_tools]; [split; [auto|intros y []]|].
  destruct (reg !! n) as [t0|] eqn:Ht0; [|split; [auto|intros y []]].
  set (reg1 := <[n := <["name"%string := TStr n]> t0]> reg).
  assert (Hf : forall m k, k <> "name"%string -> field reg1 m k = field reg m k)
    by (intros m k Hk; apply field_insert_name; assumption).
  destruct (<["name"%string := TStr n]> t0 !! "task"%string) as [tt|] eqn:Ett;
    [|split; [exact Hf|intros y []]].
  destruct (IH reg1) as [IHf IHy].
  destruct (iter_tools reg1 task pkg names) as [[r ys] e]. simpl in IHf, IHy.
  assert (Hrest : forall y, In y ys -> y.2 = pkg /\ exists n', In n' (n :: names) /\
            y.1 !! "name"%string = Some (TStr n') /\
            (forall k, k <> "name"%string -> y.1 !! k = field reg n' k) /\
            (task = lit "__all__" \/ field reg n' "task" = Some (TStr task))).
  { intros y Hy. destruct (IHy y Hy) as (H1 & n' & Hn' & H2 & H3 & H4).
    split; [exact H1|]. exists n'. split; [right; exact Hn'|]. split; [exact H2|].
    split; [intros k Hk; rewrite H3 by exact Hk; apply Hf, Hk|].
    destruct H4 as [H4|H4]; [left; exact H4|right; rewrite <- Hf by discriminate; exact H4]. }
  assert (Hf' : forall m k, k <> "name"%string -> field r m k = field reg m k)
    by (intros m k Hk; rewrite IHf by exact Hk; apply Hf, Hk).
  destruct (_ || bool_decide (tt = TStr task)) eqn:Em; simpl; (split; [exact Hf'|]);
    [|exact Hrest].
  intros y [<-|Hy]; [|exact (Hrest y Hy)].
  split; [reflexivity|]. exists n. split; [left; reflexivity|].
  split; [apply lookup_insert_eq|].
  split; [intros k Hk; unfold field; rewrite Ht0; apply lookup_insert_ne; congruence|].
  apply orb_true_iff in Em as [Em|Em].
  - left. unfold pystr_eqb in Em. apply bool_decide_eq_true in Em. exact Em.
  - right. apply bool_decide_eq_true in Em. subst tt. unfold field. rewrite Ht0.
    rewrite lookup_insert_ne in Ett by discriminate. exact Ett.
Qed.

Lemma iter_packages_tools_sound_fields (task : pystr) (pkgs : list package) :
  forall reg,
  (forall m k, k <> "name"%string ->
     field (iter_packages_tools reg task pkgs).1.1 m k = field reg m k) /\
  (forall y, In y (iter_packages_tools reg task pkgs).1.2 ->
   In y.2 pkgs /\ exists v names n, y.2 !! "tools"%string = Some v /\ pval_iter v = Return names /\
   In n names /\ y.1 !! "name"%string = Some (TStr n) /\
   (forall k, k <> "name"%string -> y.1 !! k = field reg n k) /\
   (task = lit "__all__" \/ field reg n "task" = Some (TStr task))).
Proof.
  induction pkgs as [|pkg pkgs IH]; intros reg; cbn [iter_packages_tools];
    [split; [auto|intros y []]|].
  destruct (pkg !! "tools"%string) as [v|] eqn:Hv; [|split; [auto|intros y []]].
  destruct (pval_iter v) as [names|e] eqn:Hn; [|split; [auto|intros y []]].
  destruct (iter_tools_sound_fields task pkg names reg) as [Hf1 Hy1].
  destruct (iter_tools reg task pkg names) as [[r1 ys1] e1]. simpl in Hf1, Hy1.
  assert (Hy1' : forall y, In y ys1 -> In y.2 (pkg :: pkgs) /\ exists v' names' n,
            y.2 !! "tools"%string = Some v' /\ pval_iter v' = Return names' /\
            In n names' /\ y.1 !! "name"%string = Some (TStr n) /\
            (forall k, k <> "name"%string -> y.1 !! k = field reg n k) /\
            (task = lit "__all__" \/ field reg n "task" = Some (TStr task))).
  { intros y Hy. destruct (Hy1 y Hy) as (H1 & n & Hn1 & H2 & H3 & H4).
    split; [left; symmetry; exact H1|]. exists v, names, n. rewrite H1.
    repeat split; assumption. }
  destruct e1 as [e1|]; [simpl; split; [exact Hf1|exact Hy1']|].
  destruct (IH r1) as [Hf2 Hy2].
  destruct (iter_packages_tools r1 task pkgs) as [[r2 ys2] e2]. simpl in Hf2, Hy2 |- *.
  split; [intros m k Hk; rewrite Hf2 by exact Hk; apply Hf1, Hk|].
  intros y Hy. apply in_app_or in Hy as [Hy|Hy]; [exact (Hy1' y Hy)|].
  destruct (Hy2 y Hy) as (H1 & v' & names' & n & H2 & H3 & H4 & H5 & H6 & H7).
  split; [right; exact H1|]. exists v', names', n.
  split; [exact H2|]. split; [exact H3|]. split; [exact H4|]. split; [exact H5|].
  split; [intros k Hk; rewrite H6 by exact Hk; apply Hf1, Hk|].
  destruct H7 as [H7|H7]; [left; exact H7|right; rewrite <- Hf1 by discriminate; exact H7].
Qed.

Lemma run_items_sound (cn : string) (items : list (tool * package)) :
  forall d c, In (d, c) (run_items cn items).1 ->
  exists y v cs, In y items /\ y.2 !! "path"%string = Some (PStr d) /\
    y.1 !! cn = Some v /\ tval_iter v = Return cs /\ In c cs.
Proof.
  induction items as [|[t p] items IH]; intros d c H; cbn [run_items] in H; [destruct H|].
  destruct (p !! "path"%string) as [pv|] eqn:Hp; [|destruct H].
  assert (Hr : In (d, c) (run_items cn items).1 -> exists y v cs, In y ((t, p) :: items) /\
             y.2 !! "path"%string = Some (PStr d) /\ y.1 !! cn = Some v /\
             tval_iter v = Return cs /\ In c cs).
  { intros Hin. destruct (IH d c Hin) as (y & v & cs & Hy & H1 & H2 & H3 & H4).
    exists y, v, cs. split; [right; exact Hy|]. repeat split; assumption. }
  destruct (t !! cn) as [v|] eqn:Ht.
  - destruct (tval_iter v) as [cs|e] eqn:Hc; [|destruct H].
    destruct cs as [|c0 cs']; [exact (Hr H)|].
    destruct pv as [| |path|]; try destruct H.
    destruct (run_items cn items) as [rs err] eqn:Er. cbn [fst] in H.
    apply in_app_or in H as [H|H]; [|apply Hr; exact H].
    apply in_map_iff in H as (c' & Hc' & Hin). injection Hc' as -> ->.
    exists (t, p), v, (c0 :: cs'). split; [left; reflexivity|]. simpl.
    repeat split; assumption.
  - exact (Hr H).
Qed.

(** every command [run_all_commands] runs comes from the commands field of a tool listed by a package, is run in that package path, and the tool matches the task or the task is __all__. *)
Theorem run_all_commands_sound (reg : registry) (pkgs : list package) (task : pystr)
    (cn : string) (d c : pystr) :
  cn <> "name"%string ->
  In (d, c) (run_all_commands reg pkgs task cn).1 ->
  exists pkg v names n tv cs,
    In pkg pkgs /\ pkg !! "path"%string = Some (PStr d) /\
    pkg !! "tools"%string = Some v /\ pval_iter v = Return names /\ In n names /\
    field reg n cn = Some tv /\ tval_iter tv = Return cs /\ In c cs /\
    (task = lit "__all__" \/ field reg n "task" = Some (TStr task)).
Proof.
  intros Hcn H. unfold run_all_commands in H.
  destruct (iter_packages_tools_sound_fields task pkgs reg) as [_ Hy].
  destruct (iter_packages_tools reg task pkgs) as [[r items] err]. simpl in Hy.
  assert (Hin : In (d, c) (run_items cn items).1)
    by (destruct (run_items cn items) as [rs [e|]]; exact H).
  destruct (run_items_sound cn items d c Hin) as (y & tv & cs & Hyi & Hp & Ht & Hc & Hcs).
  destruct (Hy y Hyi) as (Hpk & v & names & n & Hv & Hn & Hnn & _ & Hf & Htask).
  exists y.2, v, names, n, tv, cs.
  split; [exact Hpk|]. split; [exact Hp|]. split; [exact Hv|]. split; [exact Hn|].
  split; [exact Hnn|]. split; [rewrite <- Hf by exact Hcn; exact Ht|].
  split; [exact Hc|]. split; [exact Hcs|exact Htask].
Qed.

Lemma lstrip_idem (x : pystr) : lstrip (lstrip x) = lstrip x.
Proof.
  induction x as [|c r IH]; simpl; [reflexivity|].
  destruct (is_space c) eqn:E; [exact IH|]. simpl. rewrite E. reflexivity.
Qed.

Lemma lstrip_snoc (l : pystr) (c : ascii) :
  is_space c = false -> lstrip (l ++ [c]) = lstrip l ++ [c].
Proof.
  intros Hc. induction l as [|a l IH]; simpl; [rewrite Hc; reflexivity|].
  destruct (is_space a); [exact IH|reflexivity].
Qed.

Lemma rstrip_idem (x : pystr) : rstrip (rstrip x) = rstrip x.
Proof. unfold rstrip. rewrite rev_involutive, lstrip_idem. reflexivity. Qed.

Lemma lstrip_cons_id (c : ascii) (r : pystr) : is_space c = false -> lstrip (c :: r) = c :: r.
Proof. intros Hc. simpl. rewrite Hc. reflexivity. Qed.

Lemma strip_idem (x : pystr) : strip (strip x) = strip x.
Proof.
  unfold strip.
  destruct (lstrip x) as [|c r] eqn:E.
  - reflexivity.
  - assert (Hc : is_space c = false).
    { revert E. induction x as [|a x IH]; simpl; [discriminate|].
      destruct (is_space a) eqn:Ea; [exact IH|]. intros H. injection H as -> _. exact Ea. }
    assert (Hr : rstrip (c :: r) = c :: rev (lstrip (rev r))).
    { unfold rstrip. simpl. rewrite lstrip_snoc by exact Hc. rewrite rev_app_distr. reflexivity. }
    rewrite Hr, lstrip_cons_id by exact Hc. rewrite <- Hr. apply rstrip_idem.
Qed.

Lemma parse_git_describe_strip (d : pystr) :
  parse_git_describe (strip d) = parse_git_describe d.
Proof. unfold parse_git_describe. rewrite strip_idem. reflexivity. Qed.

(** the describe field of a parsed version parses back to the same version. *)
Theorem parse_git_describe_reparse (d : pystr) (i : version_info) :
  parse_git_describe d = Ok i -> parse_git_describe (describe i) = Ok i.
Proof.
  intros H. pose proof (parse_ok_inv d i H) as (ma & mi & lp & pa & s0 & _ & _ & _ & _ & Hi).
  cbv zeta in Hi. rewrite Hi. cbn [describe]. rewrite parse_git_describe_strip.
  rewrite <- Hi. exact H.
Qed.

Lemma split_on_chars (p : ascii -> bool) (x : pystr) :
  forall w c, In w (split_on p x) -> In c w -> In c x /\ p c = false.
Proof.
  induction x as [|a r IH]; intros w c Hw Hc; simpl in Hw.
  - destruct Hw as [<-|[]]. destruct Hc.
  - destruct (p a) eqn:Ea.
    + destruct Hw as [<-|Hw]; [destruct Hc|]. destruct (IH w c Hw Hc). split; [right|]; assumption.
    + destruct (split_on p r) as [|w0 ws] eqn:E.
      * destruct Hw as [<-|[]]. destruct Hc as [<-|[]]. split; [left; reflexivity|exact Ea].
      * destruct Hw as [<-|Hw].
        -- destruct Hc as [<-|Hc]; [split; [left; reflexivity|exact Ea]|].
           destruct (IH w0 c (or_introl eq_refl) Hc). split; [right|]; assumption.
        -- destruct (IH w c (or_intror Hw) Hc). split; [right|]; assumption.
Qed.

Lemma split_ws_chars (x w : pystr) :
  In w (split_ws x) -> w <> [] /\ forall c, In c w -> In c x /\ is_space c = false.
Proof.
  unfold split_ws. rewrite filter_In. intros [Hw Hne].
  split; [destruct w; [discriminate|congruence]|].
  intros c Hc. exact (split_on_chars is_space x w c Hw Hc).
Qed.

Lemma every_other_cons {A} (b : A) (r : list A) : every_other (b :: r) = b :: every_other1 r.
Proof. destruct r as [|c r]; reflexivity. Qed.

Lemma pinning_pairs (n : nat) :
  forall l : list pystr, length l <= n -> Nat.even (length l) = true ->
  Forall (fun w => ~ In "="%char w) l ->
  let reqs := map (fun nv => nv.1 ++ lit "=" ++ nv.2) (combine (every_other l) (every_other1 l)) in
  length reqs * 2 = length l /\ Forall (fun r => length (py_split "="%char r) = 2) reqs /\
  flat_map (py_split "="%char) reqs = l.
Proof.
  induction n as [|n IH]; intros l Hn He Hf.
  - destruct l; [repeat split; constructor|simpl in Hn; lia].
  - destruct l as [|a [|b r]].
    + repeat split; constructor.
    + discriminate He.
    + inversion Hf as [|? ? Ha Hf1]; subst. inversion Hf1 as [|? ? Hb Hr]; subst.
      assert (Hsplit : py_split "="%char (a ++ lit "=" ++ b) = [a; b]).
      { change (lit "=") with ["="%char]. cbn [app].
        rewrite py_split_app_sep by exact Ha. rewrite py_split_no_sep by exact Hb. reflexivity. }
      destruct (IH r) as (H1 & H2 & H3); [simpl in Hn; lia|exact He|exact Hr|].
      cbn zeta in *.
      change (every_other (a :: b :: r)) with (a :: every_other r).
      change (every_other1 (a :: b :: r)) with (every_other (b :: r)).
      rewrite every_other_cons. cbn [combine map flat_map length fst snd] in *.
      split; [lia|].
      split; [constructor; [rewrite Hsplit; reflexivity|exact H2]|].
      rewrite Hsplit. cbn [app]. rewrite H3. reflexivity.
Qed.

Lemma existsb_ascii_In (c : ascii) (x : pystr) : existsb (ascii_eqb c) x = true <-> In c x.
Proof.
  rewrite existsb_exists. split.
  - intros (c' & Hin & He). apply ascii_eqb_true in He. subst. exact Hin.
  - intros Hin. exists c. split; [exact Hin|apply ascii_eqb_true; reflexivity].
Qed.

Lemma find_forbidden_none (p : pystr) :
  List.find (fun c => existsb (ascii_eqb c) p) (lit "=<>!*") = None <->
  forall c, In c (lit "=<>!*") -> ~ In c p.
Proof.
  split.
  - intros H c Hc Hp. pose proof (find_none _ _ H c Hc) as Hf. cbv beta in Hf.
    rewrite (proj2 (existsb_ascii_In c p) Hp) in Hf. discriminate.
  - intros H. destruct (List.find _ _) as [c|] eqn:E; [|reflexivity].
    apply find_some in E as [Hc Hx]. apply existsb_ascii_In in Hx. exfalso. exact (H c Hc Hx).
Qed.

(** [setup_pinning] succeeds exactly when the pinning contains none of the characters =<>!* and has an even number of words. *)
Theorem setup_pinning_return_iff (pinning : pystr) :
  (exists reqs, setup_pinning pinning = Return reqs) <->
  (forall c, In c (lit "=<>!*") -> ~ In c pinning) /\ Nat.even (length (split_ws pinning)) = true.
Proof.
  unfold setup_pinning. rewrite <- find_forbidden_none.
  destruct (List.find _ _) as [c|].
  - split; [intros [reqs H]; discriminate|intros [H _]; discriminate].
  - rewrite <- Nat.negb_odd. destruct (Nat.odd _).
    + split; [intros [reqs H]; discriminate|intros [_ H]; discriminate].
    + split; [intros _; split; reflexivity|intros _; eexists; reflexivity].
Qed.

(** the requirements [setup_pinning] returns are name=version pairs, one per two words, whose parts are the words of the pinning in order. *)
Theorem setup_pinning_round_trip (pinning : pystr) (reqs : list pystr) :
  setup_pinning pinning = Return reqs ->
  length reqs * 2 = length (split_ws pinning) /\
  Forall (fun r => length (py_split "="%char r) = 2) reqs /\
  flat_map (py_split "="%char) reqs = split_ws pinning.
Proof.
  intros H.
  assert (Hok : exists reqs, setup_pinning pinning = Return reqs) by (exists reqs; exact H).
  apply setup_pinning_return_iff in Hok as [Hc He].
  unfold setup_pinning in H.
  rewrite (proj2 (find_forbidden_none pinning) Hc) in H.
  assert (Ho : Nat.odd (length (split_ws pinning)) = false)
    by (rewrite <- Nat.negb_even, He; reflexivity).
  rewrite Ho in H. injection H as <-.
  apply (pinning_pairs (length (split_ws pinning))); [lia|exact He|].
  apply List.Forall_forall. intros w Hw Heq.
  apply (Hc "="%char); [left; reflexivity|].
  exact (proj1 (proj2 (split_ws_chars pinning w Hw) "="%char Heq)).
Qed.

Lemma join_sep_chars (sep c : ascii) (ws : list pystr) :
  In c (join_sep sep ws) -> c = sep \/ exists w, In w ws /\ In c w.
Proof.
  induction ws as [|w ws IH]; simpl; [tauto|].
  destruct ws as [|w' ws']; [intros H; right; exists w; tauto|].
  intros H. apply in_app_or in H as [H|[H|H]].
  - right. exists w. tauto.
  - left. symmetry. exact H.
  - destruct (IH H) as [->|(w0 & Hw0 & Hc)]; [left; reflexivity|right; exists w0; tauto].
Qed.

(** the conda environment name never contains whitespace when the project name has none. *)
Theorem env_name_no_whitespace (project_name pinning : pystr) :
  Forall (fun c => is_space c = false) project_name ->
  Forall (fun c => is_space c = false) (env_name project_name pinning).
Proof.
  intros Hp. unfold env_name. apply Forall_app. split; [exact Hp|].
  apply Forall_app. split; [repeat constructor|].
  destruct pinning as [|c0 r]; [constructor|].
  constructor; [reflexivity|].
  apply List.Forall_forall. intros c Hc.
  destruct (join_sep_chars _ _ _ Hc) as [->|(w & Hw & Hcw)]; [reflexivity|].
  exact (proj2 (proj2 (split_ws_chars _ w Hw) c Hcw)).
Qed.

Lemma split_on_all_sep (p : ascii -> bool) (x : pystr) :
  Forall (fun c => p c = true) x -> Forall (fun w => w = []) (split_on p x).
Proof.
  induction x as [|c r IH]; intros H; simpl; [repeat constructor|].
  inversion H as [|? ? Hc Hr]; subst. rewrite Hc. constructor; [reflexivity|exact (IH Hr)].
Qed.

(** a pinning made only of whitespace gives the environment name project-dev- with a trailing dash. *)
Theorem env_name_blank_pinning (project_name pinning : pystr) :
  pinning <> [] -> Forall (fun c => is_space c = true) pinning ->
  env_name project_name pinning = project_name ++ lit "-dev-".
Proof.
  intros Hne Hs. unfold env_name.
  assert (Hw : split_ws pinning = []).
  { unfold split_ws. pose proof (split_on_all_sep is_space pinning Hs) as Hall.
    induction (split_on is_space pinning) as [|w ws IH]; [reflexivity|].
    inversion Hall as [|? ? Hw Hws]; subst. simpl. exact (IH Hws). }
  destruct pinning as [|c r]; [contradiction|]. rewrite Hw. cbn [join_sep].
  rewrite app_nil_r. reflexivity.
Qed.

Lemma py_split_app_sep_gen (sep : ascii) (x y : pystr) :
  py_split sep (x ++ sep :: y) = py_split sep x ++ py_split sep y.
Proof.
  induction x as [|c r IH]; simpl.
  - rewrite (proj2 (ascii_eqb_true _ _) eq_refl). reflexivity.
  - rewrite IH. destruct (ascii_eqb c sep); [reflexivity|].
    pose proof (py_split_not_nil sep r) as Hne.
    destruct (py_split sep r); [contradiction|reflexivity].
Qed.

Lemma replace_char_id (old new : ascii) (x : pystr) :
  ~ In old x -> replace_char old new x = x.
Proof.
  intros H. unfold replace_char. induction x as [|c r IH]; simpl; [reflexivity|].
  destruct (ascii_eqb c old) eqn:E; [apply ascii_eqb_true in E; subst; simpl in H; tauto|].
  rewrite IH by (simpl in H; tauto). reflexivity.
Qed.

(** [upload_docs_git] takes owner/repo from the last two components of an ssh or https remote url. *)
Theorem git_slug_owner_repo (prefix owner repo : pystr) (c : ascii) :
  c = ":"%char \/ c = "/"%char ->
  ~ In "/"%char owner -> ~ In ":"%char owner ->
  ~ In "/"%char repo -> ~ In ":"%char repo ->
  git_slug (prefix ++ c :: owner ++ "/"%char :: repo) = owner ++ "/"%char :: repo.
Proof.
  intros Hc Ho1 Ho2 Hr1 Hr2. unfold git_slug.
  assert (Hrep : replace_char ":"%char "/"%char (prefix ++ c :: owner ++ "/"%char :: repo) =
                 replace_char ":"%char "/"%char prefix ++ "/"%char :: owner ++ "/"%char :: repo).
  { unfold replace_char at 1. rewrite map_app. cbn [map]. rewrite map_app. cbn [map].
    fold (replace_char ":"%char "/"%char owner). fold (replace_char ":"%char "/"%char repo).
    rewrite !replace_char_id by assumption.
    destruct Hc as [-> | ->]; reflexivity. }
  rewrite Hrep, !py_split_app_sep_gen, (py_split_no_sep _ owner Ho1), (py_split_no_sep _ repo Hr1).
  unfold last_n. rewrite length_app.
  replace (length (py_split "/"%char (replace_char ":"%char "/"%char prefix)) + length ([owner] ++ [repo]) - 2)
    with (length (py_split "/"%char (replace_char ":"%char "/"%char prefix))) by (simpl; lia).
  rewrite List.skipn_app, List.skipn_all, Nat.sub_diag. reflexivity.
Qed.

Lemma nat_of_ascii_inj (a b : ascii) : nat_of_ascii a = nat_of_ascii b -> a = b.
Proof.
  intros H. rewrite <- (ascii_nat_embedding a), <- (ascii_nat_embedding b), H. reflexivity.
Qed.

Lemma str_ltb_irrefl (x : pystr) : str_ltb x x = false.
Proof.
  induction x as [|a x IH]; simpl; [reflexivity|].
  rewrite Nat.ltb_irrefl, Nat.eqb_refl, IH. reflexivity.
Qed.

Lemma str_ltb_trans (x y z : pystr) :
  str_ltb x y = true -> str_ltb y z = true -> str_ltb x z = true.
Proof.
  revert y z. induction x as [|a x IH]; intros [|b y] [|c z]; simpl; try discriminate; auto.
  rewrite !orb_true_iff, !andb_true_iff, !Nat.ltb_lt, !Nat.eqb_eq.
  intros [H1|[H1 H1']] [H2|[H2 H2']]; try (left; lia).
  right. split; [lia|]. exact (IH y z H1' H2').
Qed.

Lemma str_ltb_total (x y : pystr) : x = y \/ str_ltb x y = true \/ str_ltb y x = true.
Proof.
  revert y. induction x as [|a x IH]; intros [|b y]; simpl; auto.
  rewrite !orb_true_iff, !andb_true_iff, !Nat.ltb_lt, !Nat.eqb_eq.
  destruct (Nat.lt_trichotomy (nat_of_ascii a) (nat_of_ascii b)) as [H|[H|H]]; [tauto| |tauto].
  destruct (IH y) as [->|[Hl|Hl]].
  - left. f_equal. apply nat_of_ascii_inj, H.
  - right. left. right. split; [exact H|exact Hl].
  - right. right. right. split; [lia|exact Hl].
Qed.

Lemma str_ltb_asym (x y : pystr) : str_ltb x y = true -> str_ltb y x = false.
Proof.
  intros H. destruct (str_ltb y x) eqn:E; [|reflexivity].
  pose proof (str_ltb_trans _ _ _ H E) as Hxx. rewrite str_ltb_irrefl in Hxx. discriminate.
Qed.

#[global] Instance str_le_total : Total str_le.
Proof.
  intros x y. unfold str_le.
  destruct (str_ltb_total x y) as [->|[H|H]].
  - left. apply str_ltb_irrefl.
  - left. apply str_ltb_asym, H.
  - right. apply str_ltb_asym, H.
Qed.

#[global] Instance str_le_trans : Transitive str_le.
Proof.
  intros x y z. unfold str_le. intros H1 H2.
  destruct (str_ltb z x) eqn:E; [|reflexivity]. exfalso.
  destruct (str_ltb_total x y) as [->|[H|H]].
  - congruence.
  - pose proof (str_ltb_trans _ _ _ E H). congruence.
  - congruence.
Qed.

#[global] Instance str_le_antisymm : AntiSymm (=) str_le.
Proof.
  intros x y. unfold str_le. intros H1 H2.
  destruct (str_ltb_total x y) as [->|[H|H]]; [reflexivity|congruence|congruence].
Qed.

Lemma py_sorted_perm (l1 l2 : list pystr) : Permutation l1 l2 -> py_sorted l1 = py_sorted l2.
Proof.
  intros H. unfold py_sorted. apply (Sorted_unique str_le).
  - apply Sorted_merge_sort, str_le_total.
  - apply Sorted_merge_sort, str_le_total.
  - rewrite !merge_sort_Permutation. exact H.
Qed.

Lemma sorted_set_same_elements (l1 l2 : list pystr) :
  (forall x, In x l1 <-> In x l2) -> sorted_set l1 = sorted_set l2.
Proof.
  intros H. unfold sorted_set. apply py_sorted_perm.
  apply NoDup_Permutation; [apply NoDup_remove_dups|apply NoDup_remove_dups|].
  intros x. rewrite !elem_of_remove_dups, !list_elem_of_In. apply H.
Qed.

Lemma In_sorted_set (l : list pystr) (x : pystr) : In x (sorted_set l) <-> In x l.
Proof.
  unfold sorted_set, py_sorted. rewrite <- !list_elem_of_In.
  rewrite merge_sort_Permutation, elem_of_remove_dups. reflexivity.
Qed.

Lemma perm_flat_map {A B} (g : A -> list B) (l l' : list A) :
  Permutation l l' -> Permutation (flat_map g l) (flat_map g l').
Proof.
  induction 1 as [|x l l' H IH|x y l|l l' l'' H1 IH1 H2 IH2]; simpl.
  - constructor.
  - apply Permutation_app_head, IH.
  - rewrite !app_assoc. apply Permutation_app_tail, Permutation_app_comm.
  - etransitivity; [exact IH1|exact IH2].
Qed.

Lemma extend_all_ok {A B C} (f : A -> pyresult (list B * list C)) (l : list A) r :
  extend_all f l = Return r -> Forall (fun x => exists r, f x = Return r) l.
Proof.
  revert r. induction l as [|x l IH]; intros r H; simpl in H; [constructor|].
  destruct (f x) as [[bs cs]|e] eqn:Ef; [|discriminate].
  destruct (extend_all f l) as [[bs' cs']|e] eqn:Er; [|discriminate].
  constructor; [exists (bs, cs); exact Ef|exact (IH _ eq_refl)].
Qed.

Lemma extend_all_all {A B C} (f : A -> pyresult (list B * list C)) (l : list A) :
  Forall (fun x => exists r, f x = Return r) l ->
  extend_all f l = Return (flat_map (fun x => (get_ok ([], []) (f x)).1) l,
                           flat_map (fun x => (get_ok ([], []) (f x)).2) l).
Proof.
  induction l as [|x l IH]; intros H; simpl; [reflexivity|].
  inversion H as [|? ? [[bs cs] Hx] Hl]; subst. rewrite Hx, (IH Hl). reflexivity.
Qed.

Lemma extend_all_perm {A B C} (f : A -> pyresult (list B * list C)) (l l' : list A) bs cs :
  Permutation l l' -> extend_all f l = Return (bs, cs) ->
  exists bs' cs', extend_all f l' = Return (bs', cs') /\
    Permutation bs bs' /\ Permutation cs cs'.
Proof.
  intros Hp H. pose proof (extend_all_ok f l _ H) as Hok.
  assert (Hok' : Forall (fun x => exists r, f x = Return r) l').
  { apply List.Forall_forall. intros x Hx. rewrite List.Forall_forall in Hok.
    apply Hok. apply Permutation_in with (l := l'); [symmetry; exact Hp|exact Hx]. }
  rewrite (extend_all_all f l Hok) in H. injection H as <- <-.
  rewrite (extend_all_all f l' Hok'). do 2 eexists. split; [reflexivity|].
  split; apply perm_flat_map, Hp.
Qed.

(** the conda packages, recipe directories and pip packages that [install_requirements] hashes do not depend on the order of the packages. *)
Theorem install_inputs_package_order (reg : registry) (isdir : pystr -> bool) (project : tool)
    (pkgs pkgs' : list package) (r : list pystr * list pystr * list pystr) :
  Permutation pkgs pkgs' ->
  install_inputs reg isdir project pkgs = Return r ->
  install_inputs reg isdir project pkgs' = Return r.
Proof.
  intros Hp H. unfold install_inputs in *.
  destruct (extend_all (scan_package reg isdir) pkgs) as [[ts ds]|e] eqn:E1; [|discriminate].
  destruct (extend_all_perm _ _ _ ts ds Hp E1) as (ts' & ds' & -> & Hts & Hds).
  destruct (extend_all tool_requirements (project :: ts)) as [[cs ps]|e] eqn:E2; [|discriminate].
  destruct (extend_all_perm _ _ (project :: ts') cs ps (perm_skip project Hts) E2)
    as (cs' & ps' & -> & Hcs & Hps).
  rewrite <- H. f_equal. f_equal. f_equal.
  - apply sorted_set_same_elements. intros x.
    split; apply Permutation_in; apply perm_skip, perm_skip, perm_skip;
      first [exact Hcs|symmetry; exact Hcs].
  - apply py_sorted_perm. first [exact Hds|symmetry; exact Hds].
  - apply sorted_set_same_elements. intros x.
    split; apply Permutation_in; first [exact Hps|symmetry; exact Hps].
Qed.

(** the two conda install commands split the conda packages: conda and conda-build go to the base environment, pip to the development environment, and no package goes to both. *)
Theorem install_inputs_conda_split (reg : registry) (isdir : pystr -> bool) (project : tool)
    (pkgs : list package) (c r p : list pystr) :
  install_inputs reg isdir project pkgs = Return (c, r, p) ->
  In (lit "conda") (conda_install_split c).1 /\
  In (lit "conda-build") (conda_install_split c).1 /\
  In (lit "pip") (conda_install_split c).2 /\
  (forall x, In x c <-> In x (conda_install_split c).1 \/ In x (conda_install_split c).2) /\
  (forall x, ~ (In x (conda_install_split c).1 /\ In x (conda_install_split c).2)).
Proof.
  intros H. unfold install_inputs in H.
  destruct (extend_all (scan_package reg isdir) pkgs) as [[ts ds]|e]; [|discriminate].
  destruct (extend_all tool_requirements (project :: ts)) as [[cs ps]|e]; [|discriminate].
  injection H as <- _ _. unfold conda_install_split. cbn [fst snd].
  rewrite !filter_In, !In_sorted_set.
  split; [split; [left; reflexivity|reflexivity]|].
  split; [split; [right; left; reflexivity|reflexivity]|].
  split; [split; [right; right; left; reflexivity|reflexivity]|].
  split.
  - intros x. rewrite !filter_In. destruct (starts_with (lit "conda") x); simpl; tauto.
  - intros x [H1 H2]. apply filter_In in H1 as [_ H1]. apply filter_In in H2 as [_ H2].
    rewrite H1 in H2. discriminate.
Qed.

Lemma lstrip_nonspace (x : pystr) : Forall (fun c => is_space c = false) x -> lstrip x = x.
Proof. intros H. destruct H as [|c r Hc _]; simpl; [reflexivity|]. rewrite Hc. reflexivity. Qed.

Lemma strip_snoc_space (h : pystr) (c : ascii) :
  Forall (fun c => is_space c = false) h -> is_space c = true -> strip (h ++ [c]) = h.
Proof.
  intros Hh Hc. unfold strip, rstrip.
  destruct h as [|a h'] eqn:Eh; [simpl; rewrite Hc; reflexivity|]. rewrite <- Eh in *.
  assert (Hl : lstrip (h ++ [c]) = h ++ [c]).
  { subst h. inversion Hh as [|? ? Ha _]; subst. simpl. rewrite Ha. reflexivity. }
  rewrite Hl, rev_app_distr. cbn [rev app lstrip]. rewrite Hc.
  rewrite lstrip_nonspace by (apply Forall_rev; exact Hh). apply rev_involutive.
Qed.

Lemma hexdigest_nonspace (m : list byte) :
  Forall (fun c => is_space c = false) (SHA256.hexdigest m).
Proof.
  eapply List.Forall_impl; [|apply hexdigest_hex].
  intros c Hc. repeat (destruct Hc as [<-|Hc]; [reflexivity|]). destruct Hc.
Qed.

(** the skip file written by [install_requirements] skips the next install exactly when it is less than a day old and the requirements hash is unchanged. *)
Theorem skip_install_round_trip (fs : filesystem) (c r p : list pystr) (mtime now : Q)
    (req_hash : pystr) :
  skip_install (Some (mtime, skip_file_content (compute_req_hash fs c r p))) now req_hash = true <->
  (now - mtime < 24 * 3600)%Q /\ req_hash = compute_req_hash fs c r p.
Proof.
  unfold skip_install, skip_file_content.
  rewrite strip_snoc_space by (apply hexdigest_nonspace || reflexivity).
  destruct (Qlt_le_dec _ _) as [Hlt|Hge].
  - unfold pystr_eqb. rewrite bool_decide_eq_true. split; [intros <-; tauto|intros [_ ->]; reflexivity].
  - split; [discriminate|]. intros [Hlt _]. exfalso. apply (Qlt_not_le _ _ Hlt Hge).
Qed.

Lemma add_requirements_spec (own : list pystr) (reqs : list pystr) :
  forall acc s, add_requirements own reqs acc = Return s ->
  (NoDup acc -> NoDup s) /\
  forall x, In x s <-> In x acc \/ exists r w0 ws, In r reqs /\ split_ws r = w0 :: ws /\
    ~ In w0 own /\ x = join_sep " "%char (firstn 2 (w0 :: ws)).
Proof.
  induction reqs as [|r reqs IH]; intros acc s H; simpl in H.
  - injection H as <-. split; [auto|]. intros x. split; [tauto|].
    intros [Hx|(r & _ & _ & [] & _)]; exact Hx.
  - destruct (split_ws r) as [|w0 ws] eqn:Er; [discriminate|].
    set (x0 := join_sep " "%char (firstn 2 (w0 :: ws))) in *.
    set (acc' := if bool_decide (w0 ∈ own) then acc
                 else if bool_decide (x0 ∈ acc) then acc else acc ++ [x0]) in H.
    destruct (IH acc' s H) as [Hnd Hin].
    assert (Hacc : forall x, In x acc' <-> In x acc \/ (~ In w0 own /\ x = x0)).
    { intros x. subst acc'. case_bool_decide as Ho; [rewrite list_elem_of_In in Ho; tauto|].
      rewrite list_elem_of_In in Ho.
      case_bool_decide as Hx0; rewrite list_elem_of_In in Hx0.
      - split; [tauto|]. intros [Hx|[_ ->]]; assumption.
      - rewrite in_app_iff. simpl. split; [intros [Hx|[Hx|[]]]; [tauto|right; split; [exact Ho|symmetry; exact Hx]]|].
        intros [Hx|[_ ->]]; tauto. }
    split.
    + intros Hnd0. apply Hnd. subst acc'. case_bool_decide; [exact Hnd0|].
      case_bool_decide as Hx0; [exact Hnd0|].
      apply NoDup_app. split; [exact Hnd0|]. split; [|apply NoDup_singleton].
      intros y Hy Hy'. apply list_elem_of_singleton in Hy'. subst y. contradiction.
    + intros x. rewrite Hin, Hacc. split.
      * intros [[Hx|[Ho ->]]|(r' & w0' & ws' & Hr' & Hs' & Ho' & ->)]; [tauto| |].
        -- right. exists r, w0, ws. split; [left; reflexivity|]. tauto.
        -- right. exists r', w0', ws'. split; [right; exact Hr'|]. tauto.
      * intros [Hx|(r' & w0' & ws' & [<-|Hr'] & Hs' & Ho' & ->)]; [tauto| |].
        -- rewrite Er in Hs'. injection Hs' as <- <-. left. right. tauto.
        -- right. exists r', w0', ws'. tauto.
Qed.

(** the requirements gathered from a rendered recipe have no duplicates and are the first two words of each build, host or run requirement not naming a project package. *)
Theorem rendered_requirements (own build host run : list pystr) (s : list pystr) :
  add_requirements own (build ++ host ++ run) [] = Return s ->
  NoDup s /\
  forall x, In x s <-> exists r w0 ws, In r (build ++ host ++ run) /\ split_ws r = w0 :: ws /\
    ~ In w0 own /\ x = join_sep " "%char (firstn 2 (w0 :: ws)).
Proof.
  intros H. destruct (add_requirements_spec own _ [] s H) as [Hnd Hin].
  split; [apply Hnd; constructor|]. intros x. rewrite Hin. simpl. tauto.
Qed.

Lemma add_requirements_error (own : list pystr) (reqs : list pystr) :
  forall acc e, add_requirements own reqs acc = Throw e <->
  e = IndexError /\ exists r, In r reqs /\ split_ws r = [].
Proof.
  induction reqs as [|r reqs IH]; intros acc e; simpl.
  - split; [discriminate|intros (_ & r & [] & _)].
  - destruct (split_ws r) as [|w0 ws] eqn:Er.
    + split; [intros H; injection H as <-; split; [reflexivity|exists r; tauto]|].
      intros [-> _]. reflexivity.
    + rewrite IH. split.
      * intros [-> (r' & Hr' & Hs')]. split; [reflexivity|exists r'; tauto].
      * intros [-> (r' & [<-|Hr'] & Hs')]; [congruence|]. split; [reflexivity|exists r'; tauto].
Qed.

Lemma split_on_covers (p : ascii -> bool) (x : pystr) (c : ascii) :
  In c x -> p c = false -> exists w, In w (split_on p x) /\ In c w.
Proof.
  induction x as [|a r IH]; intros Hc Hp; [destruct Hc|]. simpl.
  destruct (p a) eqn:Ea.
  - destruct Hc as [->|Hc]; [congruence|]. destruct (IH Hc Hp) as (w & Hw & Hcw).
    exists w. split; [right; exact Hw|exact Hcw].
  - destruct (split_on p r) as [|w0 ws] eqn:E.
    + destruct Hc as [->|Hc]; [exists [c]; split; [left; reflexivity|left; reflexivity]|].
      destruct (IH Hc Hp) as (w & [] & _).
    + destruct Hc as [->|Hc]; [exists (c :: w0); split; [left; reflexivity|left; reflexivity]|].
      destruct (IH Hc Hp) as (w & [Hw0|Hw] & Hcw).
      * subst w. exists (a :: w0). split; [left; reflexivity|right; exact Hcw].
      * exists w. split; [right; exact Hw|exact Hcw].
Qed.

Lemma split_ws_nil (x : pystr) : split_ws x = [] <-> Forall (fun c => is_space c = true) x.
Proof.
  split.
  - intros H. apply List.Forall_forall. intros c Hc.
    destruct (is_space c) eqn:Ec; [reflexivity|exfalso].
    destruct (split_on_covers is_space x c Hc Ec) as (w & Hw & Hcw).
    assert (Hin : In w (split_ws x)).
    { unfold split_ws. apply filter_In. split; [exact Hw|destruct w; [destruct Hcw|reflexivity]]. }
    rewrite H in Hin. destruct Hin.
  - intros Hs. unfold split_ws. pose proof (split_on_all_sep is_space x Hs) as Hall.
    induction (split_on is_space x) as [|w ws IH]; [reflexivity|].
    inversion Hall as [|? ? Hw Hws]; subst. simpl. exact (IH Hws).
Qed.

(** gathering the requirements of a rendered recipe raises only IndexError, and exactly when some requirement is blank. *)
Theorem rendered_requirements_index_error (own build host run : list pystr) (e : pyexc) :
  add_requirements own (build ++ host ++ run) [] = Throw e <->
  e = IndexError /\ exists r, In r (build ++ host ++ run) /\ Forall (fun c => is_space c = true) r.
Proof.
  rewrite add_requirements_error. split.
  - intros [-> (r & Hr & Hs)]. split; [reflexivity|]. exists r. rewrite <- split_ws_nil. tauto.
  - intros [-> (r & Hr & Hs)]. split; [reflexivity|]. exists r. rewrite split_ws_nil. tauto.
Qed.

Lemma export_all_fold (format : package -> pystr -> pystr) (sep : ascii) (pkg : package)
    (nvs : list (pystr * pystr)) (st : export_state) :
  export_all format sep pkg nvs st =
  fold_left (fun st x => export_var x.1.1 st x.1.2 x.2)
    (map (fun nv => (sep, nv.1, format pkg nv.2)) nvs) st.
Proof.
  unfold export_all. revert st. induction nvs as [|nv nvs IH]; intros st; simpl; [reflexivity|].
  apply IH.
Qed.

Lemma build_inplace_exports_seq (format : package -> pystr -> pystr) (items : list (tool * package)) :
  forall st st', build_inplace_exports format items st = Return st' ->
  st' = fold_left (fun st x => export_var x.1.1 st x.1.2 x.2) (exports_seq format items) st.
Proof.
  induction items as [|[t pkg] items IH]; intros st st' H; simpl in H; [injection H as <-; reflexivity|].
  unfold build_inplace_step in H.
  destruct (export_items t "export_paths") as [paths|e] eqn:Ep; [|discriminate].
  destruct (export_items t "export_flags") as [flags|e] eqn:Ef; [|discriminate].
  apply IH in H. rewrite H. unfold exports_seq. cbn [flat_map fst snd]. rewrite Ep, Ef.
  cbn [get_ok]. rewrite !fold_left_app, <- !export_all_fold. reflexivity.
Qed.

Lemma pystr_eqb_spec (x y : pystr) : pystr_eqb x y = true <-> x = y.
Proof. unfold pystr_eqb. apply bool_decide_eq_true. Qed.

Lemma setdefault_append_lookup (d : list (pystr * list pystr)) (n v name : pystr) :
  assoc_lookup (setdefault_append d n v) name =
  if pystr_eqb n name
  then Some (match assoc_lookup d name with Some vs => vs | None => [] end ++ [v])
  else assoc_lookup d name.
Proof.
  induction d as [|[k vs] d IH]; simpl.
  - destruct (pystr_eqb n name); reflexivity.
  - destruct (pystr_eqb k n) eqn:E1.
    + apply pystr_eqb_spec in E1. subst k. simpl.
      destruct (pystr_eqb n name); reflexivity.
    + simpl. rewrite IH.
      destruct (pystr_eqb k name) eqn:E2, (pystr_eqb n name) eqn:E3; try reflexivity.
      apply pystr_eqb_spec in E2, E3. subst. rewrite (proj2 (pystr_eqb_spec name name) eq_refl) in E1.
      discriminate.
Qed.

Lemma exports_fold_name (name : pystr) (sep : ascii) (s : list (ascii * pystr * pystr)) :
  Forall (fun x => x.1.2 = name -> x.1.1 = sep) s ->
  forall st,
  let st' := fold_left (fun st x => export_var x.1.1 st x.1.2 x.2) s st in
  st_env st' !! name = append_all sep (st_env st !! name) (values_for name s) /\
  assoc_lookup (st_extra_paths st') name =
    match assoc_lookup (st_extra_paths st) name, values_for name s with
    | None, [] => None
    | o, vs => Some (match o with Some vs0 => vs0 | None => [] end ++ vs)
    end /\
  st_extra_flags st' = st_extra_flags st.
Proof.
  induction s as [|[[sp n] v] s IH]; intros Hs st; simpl.
  - unfold values_for. simpl. split; [reflexivity|]. split; [|reflexivity].
    destruct (assoc_lookup (st_extra_paths st) name); [rewrite app_nil_r|]; reflexivity.
  - inversion Hs as [|? ? Hx Hs']; subst. cbn [fst snd] in Hx.
    destruct (IH Hs' (export_var sp st n v)) as (H1 & H2 & H3). cbn zeta in *.
    rewrite H1, H2, H3. unfold values_for. cbn [List.filter fst snd].
    unfold export_var. cbn [st_env st_extra_paths st_extra_flags].
    rewrite setdefault_append_lookup.
    destruct (pystr_eqb n name) eqn:En.
    + apply pystr_eqb_spec in En. subst n. rewrite (Hx eq_refl). rewrite lookup_insert_eq.
      cbn [map]. fold (values_for name s).
      split; [|split; [|reflexivity]].
      * unfold append_all. cbn [fold_left]. reflexivity.
      * destruct (assoc_lookup (st_extra_paths st) name); destruct (values_for name s);
          rewrite ?app_nil_r, <- ?app_assoc; reflexivity.
    + assert (n <> name) by (intros ->; rewrite (proj2 (pystr_eqb_spec name name) eq_refl) in En; discriminate).
      rewrite lookup_insert_ne by congruence. split; [reflexivity|split; reflexivity].
Qed.

Lemma append_all_join (sep : ascii) (vs : list pystr) :
  vs <> [] -> Forall (fun v => v <> []) vs ->
  forall cur, append_all sep cur vs = Some (sep_prefix sep cur ++ join_sep sep vs).
Proof.
  induction vs as [|v vs IH]; intros Hne Hall cur; [contradiction|].
  inversion Hall as [|? ? Hv Hall']; subst.
  destruct vs as [|v' vs']; [reflexivity|].
  change (append_all sep cur (v :: v' :: vs'))
    with (append_all sep (Some (sep_prefix sep cur ++ v)) (v' :: vs')).
  rewrite IH by (discriminate || exact Hall').
  unfold sep_prefix at 1.
  destruct (pystr_eqb (sep_prefix sep cur ++ v) []) eqn:E.
  - apply pystr_eqb_spec, app_eq_nil in E as [_ E]. contradiction.
  - cbn [join_sep]. rewrite <- !app_assoc. reflexivity.
Qed.

Lemma In_activate_exports_paths (st : export_state) (name : pystr) (vs : list pystr) :
  assoc_lookup (st_extra_paths st) name = Some vs ->
  forall line, In line (export_lines ":"%char name vs) -> In line (activate_exports st).
Proof.
  intros H line Hl. unfold activate_exports. apply in_or_app. left.
  apply in_flat_map. induction (st_extra_paths st) as [|[k ws] d IH]; simpl in H; [discriminate|].
  destruct (pystr_eqb k name) eqn:E.
  - apply pystr_eqb_spec in E. injection H as Hws. subst k ws. exists (name, vs). split; [left; reflexivity|exact Hl].
  - destruct (IH H) as (x & Hx & Hx'). exists x. split; [right; exact Hx|exact Hx'].
Qed.

(** an export flag of [build_inplace] is joined with spaces in the environment, but is recorded with the export paths, so the activation script joins it with colons and writes no flags. *)
Theorem build_inplace_flags_exported_as_paths (format : package -> pystr -> pystr)
    (items : list (tool * package)) (env : environ) (st' : export_state) (name : pystr) :
  build_inplace_exports format items {| st_env := env; st_extra_paths := []; st_extra_flags := [] |}
    = Return st' ->
  Forall (fun x => x.1.2 = name -> x.1.1 = " "%char) (exports_seq format items) ->
  values_for name (exports_seq format items) <> [] ->
  Forall (fun v => v <> []) (values_for name (exports_seq format items)) ->
  env !! name = None ->
  st_env st' !! name = Some (join_sep " "%char (values_for name (exports_seq format items))) /\
  st_extra_flags st' = [] /\
  In (lit "  export " ++ name ++ lit "=" ++ [dq] ++
      join_sep ":"%char (values_for name (exports_seq format items)) ++ [dq])
    (activate_exports st').
Proof.
  intros H Hsep Hne Hall Henv.
  apply build_inplace_exports_seq in H. subst st'.
  destruct (exports_fold_name name " "%char _ Hsep
              {| st_env := env; st_extra_paths := []; st_extra_flags := [] |}) as (H1 & H2 & H3).
  cbn zeta in *. cbn [st_env st_extra_paths st_extra_flags assoc_lookup] in H1, H2, H3.
  rewrite Henv, append_all_join in H1 by assumption.
  split; [exact H1|]. split; [exact H3|].
  destruct (values_for name (exports_seq format items)) as [|v vs] eqn:Ev; [contradiction|].
  apply (In_activate_exports_paths _ _ _ H2). simpl. right. right. right. left. reflexivity.
Qed.

(** an export path of [build_inplace] is appended to the existing value with colons, and the activation script prepends it to the variable when set. *)
Theorem build_inplace_paths_appended (format : package -> pystr -> pystr)
    (items : list (tool * package)) (env : environ) (st' : export_state) (name c : pystr) :
  build_inplace_exports format items {| st_env := env; st_extra_paths := []; st_extra_flags := [] |}
    = Return st' ->
  Forall (fun x => x.1.2 = name -> x.1.1 = ":"%char) (exports_seq format items) ->
  values_for name (exports_seq format items) <> [] ->
  Forall (fun v => v <> []) (values_for name (exports_seq format items)) ->
  env !! name = Some c -> c <> [] ->
  st_env st' !! name =
    Some (c ++ ":"%char :: join_sep ":"%char (values_for name (exports_seq format items))) /\
  In (lit "  export " ++ name ++ lit "=" ++ [dq] ++
      join_sep ":"%char (values_for name (exports_seq format items)) ++ [":"%char] ++
      lit "${" ++ name ++ lit "}" ++ [dq])
    (activate_exports st').
Proof.
  intros H Hsep Hne Hall Henv Hc.
  apply build_inplace_exports_seq in H. subst st'.
  destruct (exports_fold_name name ":"%char _ Hsep
              {| st_env := env; st_extra_paths := []; st_extra_flags := [] |}) as (H1 & H2 & _).
  cbn zeta in *. cbn [st_env st_extra_paths st_extra_flags assoc_lookup] in H1, H2.
  rewrite Henv, append_all_join in H1 by assumption.
  assert (Hcz : pystr_eqb c [] = false)
    by (destruct (pystr_eqb c []) eqn:E; [apply pystr_eqb_spec in E; contradiction|reflexivity]).
  unfold sep_prefix in H1. cbn iota beta zeta in H1. rewrite Hcz, <- app_assoc in H1. split; [exact H1|].
  destruct (values_for name (exports_seq format items)) as [|v vs] eqn:Ev; [contradiction|].
  apply (In_activate_exports_paths _ _ _ H2). simpl. right. left. reflexivity.
Qed.

Lemma read_chunks_concat (fuel : nat) (data : list byte) :
  length data < fuel -> concat (read_chunks fuel data) = data.
Proof.
  revert data. induction fuel as [|f IH]; intros data H; [lia|].
  destruct data as [|b rest]; [reflexivity|].
  change (concat (firstn 4096 (b :: rest) :: read_chunks f (skipn 4096 (b :: rest)))
    = b :: rest).
  cbn [concat]. rewrite IH; [apply firstn_skipn|].
  rewrite length_skipn. cbn [length] in *. lia.
Qed.

Lemma fold_hasher_update (h : hasher) (chunks : list (list byte)) :
  fold_left hasher_update chunks h = h ++ concat chunks.
Proof.
  revert h. induction chunks as [|c cs IH]; intros h; simpl; [rewrite app_nil_r; reflexivity|].
  rewrite IH. unfold hasher_update. rewrite app_assoc. reflexivity.
Qed.

(** [write_sha256_sum] reads the whole file in chunks, writes the hex digest, two spaces and the file name to fn_asset.sha256, and returns that name. *)
Theorem write_sha256_sum_content (files : pystr -> option (list byte)) (fn_asset : pystr)
    (data : list byte) :
  files fn_asset = Some data ->
  write_sha256_sum files fn_asset =
    Return (fn_asset ++ lit ".sha256",
            SHA256.hexdigest data ++ lit "  " ++ fn_asset ++ [newline]).
Proof.
  intros H. unfold write_sha256_sum. rewrite H. cbv zeta.
  rewrite fold_hasher_update, read_chunks_concat by lia. rewrite app_nil_l.
  unfold hasher_hexdigest. rewrite <- !app_assoc. reflexivity.
Qed.

Lemma ends_with_app (suffix x : pystr) : ends_with suffix (x ++ suffix) = true.
Proof.
  unfold ends_with. apply bool_decide_eq_true. rewrite length_app. split; [lia|].
  replace (length x + length suffix - length suffix) with (length x) by lia.
  rewrite List.skipn_app, List.skipn_all, Nat.sub_diag. reflexivity.
Qed.

Lemma write_sha256_sum_name (files : pystr -> option (list byte)) (a : pystr) r :
  write_sha256_sum files a = Return r -> r.1 = a ++ lit ".sha256".
Proof.
  unfold write_sha256_sum. destruct (files a) as [data|]; [|discriminate].
  intros H. destruct r as [n c].
  apply (f_equal (fun x => match x with Return v => Some v.1 | Throw _ => None end)) in H.
  cbv beta iota zeta in H. cbn [fst] in *. congruence.
Qed.

Lemma sha256_name_ends_with (a : pystr) : ends_with (lit "sha256") (a ++ lit ".sha256") = true.
Proof.
  change (lit ".sha256") with (lit "." ++ lit "sha256").
  rewrite app_assoc. apply ends_with_app.
Qed.

(** the assets of [deploy] never include checksum files, so globbing again after [write_sha256_sum] finds the same assets. *)
Theorem collect_assets_skips_hash_files (files : pystr -> option (list byte))
    (glob glob' : pystr -> list pystr) (patterns : list pystr) :
  (forall pattern fn, In fn (glob' pattern) ->
     In fn (glob pattern) \/ exists a r, write_sha256_sum files a = Return r /\ fn = r.1) ->
  (forall pattern fn, In fn (glob pattern) -> In fn (glob' pattern)) ->
  forall x, In x (collect_assets glob' patterns) <-> In x (collect_assets glob patterns).
Proof.
  intros Hg1 Hg2 x. unfold collect_assets. rewrite !in_flat_map.
  split; intros (pat & Hp & Hx); exists pat; split; try exact Hp;
    apply filter_In in Hx as [Hx Hn]; apply filter_In; (split; [|exact Hn]).
  - apply Hg1 in Hx as [Hx|(a & r & Hw & ->)]; [exact Hx|].
    apply write_sha256_sum_name in Hw. rewrite Hw, sha256_name_ends_with in Hn.
    discriminate.
  - apply Hg2. exact Hx.
Qed.

(** An activated environment whose deactivation script unsets CONDA_PREFIX. *)
Lemma conda_deactivate_return_witness :
  let env : environ :=
    <[lit "CONDA_PREFIX" := lit "/opt/conda"]> (<[lit "CONDA_EXE" := lit "/opt/conda/bin/conda"]>
      (<[lit "HOST" := lit "x86_64-conda-linux-gnu"]> (<[lit "PATH" := lit "/usr/bin"]> ∅))) in
  let sh (conda_exe : pystr) (e : environ) : environ := delete (lit "CONDA_PREFIX") e in
  exists r, conda_deactivate sh 3 true env = Some (Return r) /\
  ((env !! lit "CONDA_PREFIX" = None -> r = clean_env env) /\
   (true = false -> env !! lit "CONDA_PREFIX" <> None ->
      exists conda_exe, env !! lit "CONDA_EXE" = Some conda_exe /\ r = sh conda_exe env) /\
   (true = true ->
      r !! lit "HOST" = None /\ forall k, starts_with (lit "CONDA_") k = true -> r !! k = None)).
Proof.
  intros env sh. eexists. split; [reflexivity|].
  apply (conda_deactivate_return sh 3 true env). reflexivity.
Defined.

(** Two environments with different non-empty values of HOME. *)
Lemma check_env_var_value_hidden_witness :
  let env : environ := <[lit "HOME" := lit "/root"]> ∅ in
  let env' : environ := <[lit "HOME" := lit "/home/user"]> ∅ in
  (env !! lit "HOME" = None <-> env' !! lit "HOME" = None) /\
  (env !! lit "HOME" = Some [] <-> env' !! lit "HOME" = Some []) /\
  (check_env_var env (lit "HOME") = check_env_var env' (lit "HOME") /\
   In (check_env_var env (lit "HOME"))
     [lit "The environment variable " ++ lit "HOME" ++ lit " is not set.";
      lit "The environment variable " ++ lit "HOME" ++ lit " is empty.";
      lit "The environment variable " ++ lit "HOME" ++ lit " is not empty."]).
Proof.
  cbv zeta.
  assert (H1 : (<[lit "HOME" := lit "/root"]> ∅ : environ) !! lit "HOME" = None <->
               (<[lit "HOME" := lit "/home/user"]> ∅ : environ) !! lit "HOME" = None)
    by (vm_compute; split; discriminate).
  assert (H2 : (<[lit "HOME" := lit "/root"]> ∅ : environ) !! lit "HOME" = Some [] <->
               (<[lit "HOME" := lit "/home/user"]> ∅ : environ) !! lit "HOME" = Some [])
    by (vm_compute; split; discriminate).
  split; [exact H1|]. split; [exact H2|].
  exact (check_env_var_value_hidden _ _ _ H1 H2).
Defined.


(** The second package lists a tool missing from the registry. *)
Lemma iter_packages_tools_unknown_tool_witness :
  let reg : registry := <[lit "pytest" := <["task"%string := TStr (lit "test")]> ∅]> ∅ in
  let pkgs1 : list package := [<["tools"%string := PList [lit "pytest"]]> ∅] in
  let pkg : package := <["tools"%string := PList [lit "pytest"; lit "flake8"]]> ∅ in
  tools_wf reg pkgs1 /\
  pkg !! "tools"%string = Some (PList ([lit "pytest"] ++ lit "flake8" :: [])) /\
  Forall (fun m => exists tt, task_view reg m = Some (Some tt)) [lit "pytest"] /\
  reg !! lit "flake8" = None /\
  (iter_packages_tools reg (lit "test") (pkgs1 ++ pkg :: [])).2 = Some (KeyError (lit "flake8")).
Proof.
  intros reg pkgs1 pkg.
  assert (Hwf : tools_wf reg pkgs1).
  { repeat constructor; eexists; vm_compute; reflexivity. }
  assert (Hpkg : pkg !! "tools"%string = Some (PList ([lit "pytest"] ++ lit "flake8" :: [])))
    by reflexivity.
  assert (Hl1 : Forall (fun m => exists tt, task_view reg m = Some (Some tt)) [lit "pytest"]).
  { repeat constructor; eexists; vm_compute; reflexivity. }
  assert (Hn : reg !! lit "flake8" = None) by (vm_compute; reflexivity).
  split; [exact Hwf|]. split; [exact Hpkg|]. split; [exact Hl1|]. split; [exact Hn|].
  exact (iter_packages_tools_unknown_tool reg (lit "test") pkgs1 [] pkg [lit "pytest"] []
           (lit "flake8") Hwf Hpkg Hl1 Hn).
Defined.

(** A second package without a 'tools' key. *)
Lemma iter_packages_tools_missing_tools_witness :
  let reg : registry := <[lit "pytest" := <["task"%string := TStr (lit "test")]> ∅]> ∅ in
  let pkgs1 : list package := [<["tools"%string := PList [lit "pytest"]]> ∅] in
  let pkg : package := <["path"%string := PStr (lit "sub")]> ∅ in
  tools_wf reg pkgs1 /\ pkg !! "tools"%string = None /\
  (iter_packages_tools reg (lit "test") (pkgs1 ++ finalize_package (PStr (lit "roberto")) pkg :: []))
    .2 = Some (AttributeError "tools").
Proof.
  intros reg pkgs1 pkg.
  assert (Hwf : tools_wf reg pkgs1).
  { repeat constructor; eexists; vm_compute; reflexivity. }
  assert (Hpkg : pkg !! "tools"%string = None) by reflexivity.
  split; [exact Hwf|]. split; [exact Hpkg|].
  exact (iter_packages_tools_missing_tools reg (lit "test") (PStr (lit "roberto")) pkgs1 [] pkg
           Hwf Hpkg).
Defined.

(** One package whose tool has commands for the task. *)
Lemma run_all_commands_sound_witness :
  let reg : registry :=
    <[lit "pytest" := <["task"%string := TStr (lit "test")]>
                        (<["commands"%string := TList [lit "pytest -v"]]> ∅)]> ∅ in
  let pkgs : list package :=
    [<["path"%string := PStr (lit ".")]> (<["tools"%string := PList [lit "pytest"]]> ∅)] in
  "commands"%string <> "name"%string /\
  In (lit ".", lit "pytest -v") (run_all_commands reg pkgs (lit "test") "commands").1 /\
  exists pkg v names n tv cs,
    In pkg pkgs /\ pkg !! "path"%string = Some (PStr (lit ".")) /\
    pkg !! "tools"%string = Some v /\ pval_iter v = Return names /\ In n names /\
    field reg n "commands" = Some tv /\ tval_iter tv = Return cs /\ In (lit "pytest -v") cs /\
    (lit "test" = lit "__all__" \/ field reg n "task" = Some (TStr (lit "test"))).
Proof.
  cbv zeta.
  assert (Hc : "commands"%string <> "name"%string) by discriminate.
  assert (Hin : In (lit ".", lit "pytest -v")
    (run_all_commands
       (<[lit "pytest" := <["task"%string := TStr (lit "test")]>
                            (<["commands"%string := TList [lit "pytest -v"]]> ∅)]> ∅)
       [<["path"%string := PStr (lit ".")]> (<["tools"%string := PList [lit "pytest"]]> ∅)]
       (lit "test") "commands").1) by (vm_compute; left; reflexivity).
  split; [exact Hc|]. split; [exact Hin|].
  exact (run_all_commands_sound _ _ _ _ _ _ Hc Hin).
Defined.

(** A describe string with a post-release suffix. *)
Lemma parse_git_describe_reparse_witness :
  exists i, parse_git_describe (lit " 1.2.3-4-gabcdef0 ") = Ok i /\
            parse_git_describe (describe i) = Ok i.
Proof.
  eexists. split; [reflexivity|].
  apply (parse_git_describe_reparse (lit " 1.2.3-4-gabcdef0 ")). reflexivity.
Defined.

(** Two pinned packages. *)
Lemma setup_pinning_round_trip_witness :
  setup_pinning (lit " numpy 1.21  scipy 1.7") = Return [lit "numpy=1.21"; lit "scipy=1.7"] /\
  (length [lit "numpy=1.21"; lit "scipy=1.7"] * 2 = length (split_ws (lit " numpy 1.21  scipy 1.7")) /\
   Forall (fun r => length (py_split "="%char r) = 2) [lit "numpy=1.21"; lit "scipy=1.7"] /\
   flat_map (py_split "="%char) [lit "numpy=1.21"; lit "scipy=1.7"] =
     split_ws (lit " numpy 1.21  scipy 1.7")).
Proof.
  assert (H : setup_pinning (lit " numpy 1.21  scipy 1.7") =
              Return [lit "numpy=1.21"; lit "scipy=1.7"]) by (vm_compute; reflexivity).
  split; [exact H|]. exact (setup_pinning_round_trip _ _ H).
Defined.

(** A project name without whitespace and a pinning with spaces. *)
Lemma env_name_no_whitespace_witness :
  Forall (fun c => is_space c = false) (lit "roberto") /\
  Forall (fun c => is_space c = false) (env_name (lit "roberto") (lit " numpy  1.21 ")).
Proof.
  assert (H : Forall (fun c => is_space c = false) (lit "roberto"))
    by (vm_compute; repeat constructor).
  split; [exact H|]. exact (env_name_no_whitespace _ _ H).
Defined.

(** A pinning of two spaces. *)
Lemma env_name_blank_pinning_witness :
  lit "  " <> [] /\ Forall (fun c => is_space c = true) (lit "  ") /\
  env_name (lit "roberto") (lit "  ") = lit "roberto" ++ lit "-dev-".
Proof.
  assert (H1 : lit "  " <> []) by discriminate.
  assert (H2 : Forall (fun c => is_space c = true) (lit "  ")) by (vm_compute; repeat constructor).
  split; [exact H1|]. split; [exact H2|]. exact (env_name_blank_pinning _ _ H1 H2).
Defined.

(** An SSH remote of GitHub. *)
Lemma git_slug_owner_repo_witness :
  (":"%char = ":"%char \/ ":"%char = "/"%char) /\
  ~ In "/"%char (lit "theochem") /\ ~ In ":"%char (lit "theochem") /\
  ~ In "/"%char (lit "roberto.git") /\ ~ In ":"%char (lit "roberto.git") /\
  git_slug (lit "git@github.com" ++ ":"%char :: lit "theochem" ++ "/"%char :: lit "roberto.git") =
    lit "theochem" ++ "/"%char :: lit "roberto.git".
Proof.
  assert (Hc : ":"%char = ":"%char \/ ":"%char = "/"%char) by (left; reflexivity).
  assert (H1 : ~ In "/"%char (lit "theochem")) by (vm_compute; intuition discriminate).
  assert (H2 : ~ In ":"%char (lit "theochem")) by (vm_compute; intuition discriminate).
  assert (H3 : ~ In "/"%char (lit "roberto.git")) by (vm_compute; intuition discriminate).
  assert (H4 : ~ In ":"%char (lit "roberto.git")) by (vm_compute; intuition discriminate).
  repeat (split; [assumption|]).
  exact (git_slug_owner_repo _ _ _ _ Hc H1 H2 H3 H4).
Defined.

(** Two packages sharing a tool, scanned in both orders. *)
Lemma install_inputs_package_order_witness :
  let reg : registry :=
    <[lit "pytest" := <["conda_requirements"%string := TList [lit "pytest"; lit "pytest-cov"]]> ∅]>
     (<[lit "pylint" := <["conda_requirements"%string := TList [lit "pylint"]]>
                       (<["pip_requirements"%string := TList [lit "pylint-plugin"]]> ∅)]> ∅) in
  let isdir (p : pystr) : bool := pystr_eqb p (lit "b/tools/conda.recipe") in
  let project : tool := <["conda_requirements"%string := TList [lit "numpy"]]> ∅ in
  let pkg1 : package := <["path"%string := PStr (lit "a")]> (<["tools"%string := PList [lit "pytest"]]> ∅) in
  let pkg2 : package :=
    <["path"%string := PStr (lit "b")]> (<["tools"%string := PList [lit "pylint"; lit "pytest"]]> ∅) in
  let r := ([lit "conda"; lit "conda-build"; lit "numpy"; lit "pip"; lit "pylint"; lit "pytest";
             lit "pytest-cov"], [lit "b/tools/conda.recipe"], [lit "pylint-plugin"]) in
  Permutation [pkg1; pkg2] [pkg2; pkg1] /\
  install_inputs reg isdir project [pkg1; pkg2] = Return r /\
  install_inputs reg isdir project [pkg2; pkg1] = Return r.
Proof.
  intros reg isdir project pkg1 pkg2 r.
  assert (Hp : Permutation [pkg1; pkg2] [pkg2; pkg1]) by apply perm_swap.
  assert (Hr : install_inputs reg isdir project [pkg1; pkg2] = Return r) by (vm_compute; reflexivity).
  split; [exact Hp|]. split; [exact Hr|].
  exact (install_inputs_package_order reg isdir project _ _ r Hp Hr).
Defined.

(** A project whose tools require numpy and pytest. *)
Lemma install_inputs_conda_split_witness :
  let reg : registry :=
    <[lit "pytest" := <["conda_requirements"%string := TList [lit "pytest"]]> ∅]> ∅ in
  let isdir (p : pystr) : bool := false in
  let project : tool := <["conda_requirements"%string := TList [lit "numpy"]]> ∅ in
  let pkgs : list package :=
    [<["path"%string := PStr (lit ".")]> (<["tools"%string := PList [lit "pytest"]]> ∅)] in
  let c := [lit "conda"; lit "conda-build"; lit "numpy"; lit "pip"; lit "pytest"] in
  install_inputs reg isdir project pkgs = Return (c, [], []) /\
  (In (lit "conda") (conda_install_split c).1 /\
   In (lit "conda-build") (conda_install_split c).1 /\
   In (lit "pip") (conda_install_split c).2 /\
   (forall x, In x c <-> In x (conda_install_split c).1 \/ In x (conda_install_split c).2) /\
   (forall x, ~ (In x (conda_install_split c).1 /\ In x (conda_install_split c).2))).
Proof.
  intros reg isdir project pkgs c.
  assert (H : install_inputs reg isdir project pkgs = Return (c, [], [])) by (vm_compute; reflexivity).
  split; [exact H|]. exact (install_inputs_conda_split reg isdir project pkgs c [] [] H).
Defined.

(** A rendered recipe with a repeated requirement and one of the project's
    own packages. *)
Lemma rendered_requirements_witness :
  let own := [lit "roberto"] in
  let build := [lit "python"] in
  let host := [lit "python >=3.6"; lit "setuptools"] in
  let run := [lit "numpy 1.21 *"; lit "roberto"; lit "python"] in
  let s := [lit "python"; lit "python >=3.6"; lit "setuptools"; lit "numpy 1.21"] in
  add_requirements own (build ++ host ++ run) [] = Return s /\
  (NoDup s /\
   forall x, In x s <-> exists r w0 ws, In r (build ++ host ++ run) /\ split_ws r = w0 :: ws /\
     ~ In w0 own /\ x = join_sep " "%char (firstn 2 (w0 :: ws))).
Proof.
  intros own build host run s.
  assert (H : add_requirements own (build ++ host ++ run) [] = Return s) by (vm_compute; reflexivity).
  split; [exact H|]. exact (rendered_requirements own build host run s H).
Defined.

(** One tool exporting a path and a flag, another exporting the same flag. *)
Lemma build_inplace_flags_exported_as_paths_witness :
  let format (pkg : package) (v : pystr) : pystr := v in
  let items : list (tool * package) :=
    [(<["export_flags"%string := TDict [(lit "CFLAGS", lit "-O2")]]>
        (<["export_paths"%string := TDict [(lit "PATH", lit "bin")]]> ∅), ∅);
     (<["export_flags"%string := TDict [(lit "CFLAGS", lit "-g")]]> ∅, ∅)] in
  let env : environ := <[lit "PATH" := lit "/usr/bin"]> ∅ in
  let st' := {| st_env := <[lit "CFLAGS" := lit "-O2 -g"]> (<[lit "PATH" := lit "/usr/bin:bin"]> ∅);
                st_extra_paths := [(lit "PATH", [lit "bin"]); (lit "CFLAGS", [lit "-O2"; lit "-g"])];
                st_extra_flags := [] |} in
  let name := lit "CFLAGS" in
  build_inplace_exports format items {| st_env := env; st_extra_paths := []; st_extra_flags := [] |}
    = Return st' /\
  Forall (fun x => x.1.2 = name -> x.1.1 = " "%char) (exports_seq format items) /\
  values_for name (exports_seq format items) <> [] /\
  Forall (fun v => v <> []) (values_for name (exports_seq format items)) /\
  env !! name = None /\
  (st_env st' !! name = Some (join_sep " "%char (values_for name (exports_seq format items))) /\
   st_extra_flags st' = [] /\
   In (lit "  export " ++ name ++ lit "=" ++ [dq] ++
       join_sep ":"%char (values_for name (exports_seq format items)) ++ [dq])
     (activate_exports st')).
Proof.
  intros format items env st' name.
  assert (H1 : build_inplace_exports format items
                 {| st_env := env; st_extra_paths := []; st_extra_flags := [] |} = Return st')
    by (vm_compute; reflexivity).
  assert (H2 : Forall (fun x => x.1.2 = name -> x.1.1 = " "%char) (exports_seq format items)).
  { vm_compute. repeat constructor; intros Hx; try reflexivity; discriminate. }
  assert (H3 : values_for name (exports_seq format items) <> []) by (vm_compute; discriminate).
  assert (H4 : Forall (fun v => v <> []) (values_for name (exports_seq format items))).
  { vm_compute. repeat constructor; discriminate. }
  assert (H5 : env !! name = None) by (vm_compute; reflexivity).
  split; [exact H1|]. split; [exact H2|]. split; [exact H3|]. split; [exact H4|].
  split; [exact H5|].
  exact (build_inplace_flags_exported_as_paths format items env st' name H1 H2 H3 H4 H5).
Defined.

(** The same exports, for the path variable already set in the environment. *)
Lemma build_inplace_paths_appended_witness :
  let format (pkg : package) (v : pystr) : pystr := v in
  let items : list (tool * package) :=
    [(<["export_flags"%string := TDict [(lit "CFLAGS", lit "-O2")]]>
        (<["export_paths"%string := TDict [(lit "PATH", lit "bin")]]> ∅), ∅);
     (<["export_flags"%string := TDict [(lit "CFLAGS", lit "-g")]]> ∅, ∅)] in
  let env : environ := <[lit "PATH" := lit "/usr/bin"]> ∅ in
  let st' := {| st_env := <[lit "CFLAGS" := lit "-O2 -g"]> (<[lit "PATH" := lit "/usr/bin:bin"]> ∅);
                st_extra_paths := [(lit "PATH", [lit "bin"]); (lit "CFLAGS", [lit "-O2"; lit "-g"])];
                st_extra_flags := [] |} in
  let name := lit "PATH" in
  let c := lit "/usr/bin" in
  build_inplace_exports format items {| st_env := env; st_extra_paths := []; st_extra_flags := [] |}
    = Return st' /\
  Forall (fun x => x.1.2 = name -> x.1.1 = ":"%char) (exports_seq format items) /\
  values_for name (exports_seq format items) <> [] /\
  Forall (fun v => v <> []) (values_for name (exports_seq format items)) /\
  env !! name = Some c /\ c <> [] /\
  (st_env st' !! name =
     Some (c ++ ":"%char :: join_sep ":"%char (values_for name (exports_seq format items))) /\
   In (lit "  export " ++ name ++ lit "=" ++ [dq] ++
       join_sep ":"%char (values_for name (exports_seq format items)) ++ [":"%char] ++
       lit "${" ++ name ++ lit "}" ++ [dq])
     (activate_exports st')).
Proof.
  intros format items env st' name c.
  assert (H1 : build_inplace_exports format items
                 {| st_env := env; st_extra_paths := []; st_extra_flags := [] |} = Return st')
    by (vm_compute; reflexivity).
  assert (H2 : Forall (fun x => x.1.2 = name -> x.1.1 = ":"%char) (exports_seq format items)).
  { vm_compute. repeat constructor; intros Hx; try reflexivity; discriminate. }
  assert (H3 : values_for name (exports_seq format items) <> []) by (vm_compute; discriminate).
  assert (H4 : Forall (fun v => v <> []) (values_for name (exports_seq format items))).
  { vm_compute. repeat constructor; discriminate. }
  assert (H5 : env !! name = Some c) by (vm_compute; reflexivity).
  assert (H6 : c <> []) by discriminate.
  repeat (split; [assumption|]).
  exact (build_inplace_paths_appended format items env st' name c H1 H2 H3 H4 H5 H6).
Defined.

(** A two-byte asset. *)
Lemma write_sha256_sum_content_witness :
  let files (fn : pystr) : option (list byte) :=
    if pystr_eqb fn (lit "dist/a.tar.gz") then Some [x1f; x8b] else None in
  files (lit "dist/a.tar.gz") = Some [x1f; x8b] /\
  write_sha256_sum files (lit "dist/a.tar.gz") =
    Return (lit "dist/a.tar.gz" ++ lit ".sha256",
            SHA256.hexdigest [x1f; x8b] ++ lit "  " ++ lit "dist/a.tar.gz" ++ [newline]).
Proof.
  intros files.
  assert (H : files (lit "dist/a.tar.gz") = Some [x1f; x8b]) by (vm_compute; reflexivity).
  split; [exact H|]. exact (write_sha256_sum_content files _ _ H).
Defined.

(** A second glob that also finds the checksum file of the first run. *)
Lemma collect_assets_skips_hash_files_witness :
  let files (fn : pystr) : option (list byte) :=
    if pystr_eqb fn (lit "dist/a.tar.gz") then Some [x1f; x8b] else None in
  let glob (pattern : pystr) : list pystr :=
    if pystr_eqb pattern (lit "dist/*") then [lit "dist/a.tar.gz"] else [] in
  let glob' (pattern : pystr) : list pystr :=
    if pystr_eqb pattern (lit "dist/*") then [lit "dist/a.tar.gz"; lit "dist/a.tar.gz.sha256"]
    else [] in
  (forall pattern fn, In fn (glob' pattern) ->
     In fn (glob pattern) \/ exists a r, write_sha256_sum files a = Return r /\ fn = r.1) /\
  (forall pattern fn, In fn (glob pattern) -> In fn (glob' pattern)) /\
  (forall x, In x (collect_assets glob' [lit "dist/*"]) <->
             In x (collect_assets glob [lit "dist/*"])).
Proof.
  intros files glob glob'.
  assert (Hg1 : forall pattern fn, In fn (glob' pattern) ->
     In fn (glob pattern) \/ exists a r, write_sha256_sum files a = Return r /\ fn = r.1).
  { intros pattern fn. unfold glob, glob'.
    destruct (pystr_eqb pattern (lit "dist/*")); cbn [In]; [|intros []].
    intros [H|[H|[]]]; [left; left; exact H|].
    right. exists (lit "dist/a.tar.gz"). eexists. split; [reflexivity|]. subst fn. reflexivity. }
  assert (Hg2 : forall pattern fn, In fn (glob pattern) -> In fn (glob' pattern)).
  { intros pattern fn. unfold glob, glob'.
    destruct (pystr_eqb pattern (lit "dist/*")); cbn [In]; [|intros []].
    intros [H|[]]. left. exact H. }
  split; [exact Hg1|]. split; [exact Hg2|].
  exact (collect_assets_skips_hash_files files glob glob' [lit "dist/*"] Hg1 Hg2).
Defined.
